(** * simple_s3_backup_helper: locate, archive, upload, clean up

    A shallow embedding of [main.py].  The program is a linear script over
    the local filesystem, the wall clock, a remote bucket and the desktop
    trash; every function of the script is a computation in a state and
    exception monad over a [world] that holds those four things (and the
    working directory of the process).

    Conventions of the embedding:
    - a path is the list of its components, [os.path.join d n] is [d ++ [n]];
    - the filesystem is a finite map from paths to nodes (regular file or
      directory); only the failures that the shape of the filesystem
      decides are modelled (missing entry, wrong kind of entry);
    - the value [os.path.getmtime] returns is an integer: only the order
      of two timestamps is ever used;
    - [os.scandir] and [os.listdir] enumerate a directory in an order that
      Python leaves unspecified; the model enumerates in the order of the
      finite map, and the theorems speak of the listing as it comes,
      whatever its order;
    - a write is recorded at the entry written: creating, replacing or
      removing an entry leaves the modification time of the directory that
      holds it as it was, where a real filesystem advances it;
    - the zip writer is a parameter that always yields bytes, computed
      from the tree as it is before the archive file is written; that a
      real writer refuses entries older than 1980, and what it writes when
      the archive lies inside the directory it archives, is outside the
      model;
    - calls to [log.info] have no effect on the world and are left out. *)

From Stdlib Require Import ZArith Strings.Byte DecimalString.
From Stdlib Require Import DecimalNat.
From stdpp Require Import base option list strings gmap fin_maps.

Local Open Scope string_scope.
Local Open Scope list_scope.
Local Open Scope Z_scope.

(** ** Data *)

Abbreviation path := (list string) (only parsing).
Abbreviation data := (list byte) (only parsing).

Inductive node :=
| File (content : data) (mtime : Z)
| Dir (mtime : Z).

(** [DirEntry] of [os.scandir]: [f.name], [f.path], [f.is_dir()]. *)
Record DirEntry := Entry {
  entry_name : string;
  entry_path : path;
  is_dir : bool
}.

Definition node_mtime (n : node) : Z :=
  match n with File _ t => t | Dir t => t end.

Definition node_is_dir (n : node) : bool :=
  match n with Dir _ => true | File _ _ => false end.

(** The exceptions the script can end with. *)
Inductive exn :=
| Exception (msg : string)
| FileNotFoundError (p : path)
| NotADirectoryError (p : path)
| IsADirectoryError (p : path)
| FileExistsError (p : path)
| TypeError (msg : string)
| S3UploadFailedError (msg : string).

(** [time.localtime()], as far as [strftime] reads it. *)
Record struct_time := StructTime {
  tm_year : nat; tm_mon : nat; tm_mday : nat;
  tm_hour : nat; tm_min : nat; tm_sec : nat
}.

Record world := World {
  fs : gmap path node;
  bucket_objects : gmap (string * string) data;
  trash : list (path * gmap path node);
  localtime : struct_time;
  clock : Z;
  cwd : path
}.

(** The globals [CONFIG] and [TRASH_BACKUP_FOLDER] after [setup], and the
    directory of the script. *)
Record config := Config {
  machine_backup_folder_path : path;
  machine_name : string;
  wasabi_bucket_endpoint : string;
  wasabi_archive_bucket_name : string;
  TRASH_BACKUP_FOLDER : bool;
  script_directory : path
}.

Definition TEMP_DIR_NAME : string := "temp".
Definition BACKUP_PREFIX : string := "backup".

(** ** The state and exception monad *)

Inductive result (A : Type) :=
| Ok (a : A)
| Raise (e : exn).
Arguments Ok {A} a.
Arguments Raise {A} e.

Definition M (A : Type) : Type := world -> result A * world.

Definition ret {A} (a : A) : M A := fun w => (Ok a, w).
Definition raise {A} (e : exn) : M A := fun w => (Raise e, w).
Definition bind {A B} (c : M A) (k : A -> M B) : M B :=
  fun w => match c w with
           | (Ok a, w') => k a w'
           | (Raise e, w') => (Raise e, w')
           end.

Notation "x <- c ;; k" := (bind c (fun x => k))
  (at level 100, c at next level, right associativity).
Notation "c ;; k" := (bind c (fun _ => k))
  (at level 100, right associativity).

(** [for x in xs: body(x)] *)
Fixpoint for_each {A} (xs : list A) (body : A -> M unit) : M unit :=
  match xs with
  | [] => ret tt
  | x :: xs' => body x ;; for_each xs' body
  end.

Definition set_fs (m : gmap path node) (w : world) : world :=
  World m (bucket_objects w) (trash w) (localtime w) (clock w) (cwd w).

(** ** Paths and strings *)

Fixpoint strip_prefix (d p : path) : option path :=
  match d, p with
  | [], _ => Some p
  | x :: d', y :: p' => if decide (x = y) then strip_prefix d' p' else None
  | _ :: _, [] => None
  end.

(** [str(p)] for an absolute path. *)
Fixpoint os_fspath (p : path) : string :=
  match p with
  | [] => ""
  | c :: p' => "/" +:+ c +:+ os_fspath p'
  end.

(** [os.path.join(d, name)] for a plain name. *)
Definition os_path_join (d : path) (name : string) : path := d ++ [name].

(** [s.endswith(suffix)] *)
Definition endswith (s suffix : string) : bool :=
  bool_decide (String.substring (String.length s - String.length suffix)
                                (String.length suffix) s = suffix)
  && bool_decide (String.length suffix <= String.length s)%nat.

(** [f"{p}.zip"]: the suffix lands on the last component. *)
Fixpoint path_add_suffix (p : path) (suffix : string) : path :=
  match p with
  | [] => [suffix]
  | [c] => [c +:+ suffix]
  | c :: p' => c :: path_add_suffix p' suffix
  end.

(** [time.strftime("%Y%m%d-%H%M%S")] *)
Definition decimal (n : nat) : string := NilEmpty.string_of_uint (Nat.to_uint n).

Definition two_digits (n : nat) : string :=
  if (n <? 10)%nat then "0" +:+ decimal n else decimal n.

Definition strftime_Ymd_HMS (t : struct_time) : string :=
  decimal (tm_year t) +:+ two_digits (tm_mon t) +:+ two_digits (tm_mday t) +:+ "-"
  +:+ two_digits (tm_hour t) +:+ two_digits (tm_min t) +:+ two_digits (tm_sec t).

(** ** The filesystem calls of [os], [shutil] and [send2trash] *)

(** The entries right below directory [d], with their names. *)
Definition children (m : gmap path node) (d : path) : list (string * node) :=
  omap (fun kn => match strip_prefix d kn.1 with
                  | Some [name] => Some (name, kn.2)
                  | _ => None
                  end) (map_to_list m).

(** Everything strictly below [root], by path relative to [root]. *)
Definition subtree (m : gmap path node) (root : path) : list (path * node) :=
  omap (fun kn => match strip_prefix root kn.1 with
                  | Some (c :: rel) => Some (c :: rel, kn.2)
                  | _ => None
                  end) (map_to_list m).

Definition is_under (root p : path) : bool :=
  bool_decide (is_Some (strip_prefix root p)).

Definition os_path_exists (p : path) : M bool :=
  fun w => (Ok (bool_decide (is_Some (fs w !! p))), w).

Definition os_path_getmtime (p : path) : M Z :=
  fun w => match fs w !! p with
           | Some n => (Ok (node_mtime n), w)
           | None => (Raise (FileNotFoundError p), w)
           end.

Definition os_scandir (d : path) : M (list DirEntry) :=
  fun w => match fs w !! d with
           | Some (Dir _) =>
               (Ok (map (fun e => Entry e.1 (os_path_join d e.1) (node_is_dir e.2))
                        (children (fs w) d)), w)
           | Some (File _ _) => (Raise (NotADirectoryError d), w)
           | None => (Raise (FileNotFoundError d), w)
           end.

Definition os_listdir (d : path) : M (list string) :=
  fun w => match fs w !! d with
           | Some (Dir _) => (Ok (map fst (children (fs w) d)), w)
           | Some (File _ _) => (Raise (NotADirectoryError d), w)
           | None => (Raise (FileNotFoundError d), w)
           end.

(** [os.remove] deletes a regular file and refuses a directory. *)
Definition os_remove (p : path) : M unit :=
  fun w => match fs w !! p with
           | Some (File _ _) => (Ok tt, set_fs (delete p (fs w)) w)
           | Some (Dir _) => (Raise (IsADirectoryError p), w)
           | None => (Raise (FileNotFoundError p), w)
           end.

(** The directories [os.makedirs] creates on the way down to its argument.
    Below a regular file [os.mkdir] fails, and the exception names the
    directory that could not be made. *)
Fixpoint mkdir_parents (base rest : path) (t : Z) (m : gmap path node)
  : exn + gmap path node :=
  match rest with
  | [] => inr m
  | c :: rest' =>
      let q := os_path_join base c in
      match m !! q with
      | None => mkdir_parents q rest' t (<[q := Dir t]> m)
      | Some (Dir _) => mkdir_parents q rest' t m
      | Some (File _ _) =>
          inl (NotADirectoryError
                 (match rest' with
                  | c' :: _ => os_path_join q c'
                  | [] => q
                  end))
      end
  end.

Definition os_makedirs (p : path) : M unit :=
  fun w => match fs w !! p with
           | Some _ => (Raise (FileExistsError p), w)
           | None => match mkdir_parents [] p (clock w) (fs w) with
                     | inr m => (Ok tt, set_fs m w)
                     | inl e => (Raise e, w)
                     end
           end.

(** [os.path.dirname] *)
Definition os_path_dirname (p : path) : path := removelast p.

(** [send2trash(p)]: the entry and all below it leave the filesystem and
    land in the trash, from where they can be restored. *)
Definition send2trash (p : option path) : M unit :=
  fun w => match p with
           | None => (Raise (TypeError "send2trash: path is None"), w)
           | Some p =>
               match fs w !! p with
               | None => (Raise (FileNotFoundError p), w)
               | Some _ =>
                   (Ok tt,
                    World (filter (fun kn => is_under p kn.1 = false) (fs w))
                          (bucket_objects w)
                          ((p, filter (fun kn => is_under p kn.1 = true) (fs w))
                             :: trash w)
                          (localtime w) (clock w) (cwd w))
               end
           end.

(** ** The script *)

Section Script.

(** The zip writer behind [shutil.make_archive]: the bytes of the archive,
    from the entries below the archived directory.  Nothing is assumed
    about it. *)
Variable zip_encode : list (path * node) -> data.

(** The network: whether sending [body] to [key] of [bucket] fails, and
    with which exception.  Nothing is assumed about it. *)
Variable s3_fault : string -> string -> data -> option exn.

(** [shutil.make_archive(base_name, 'zip', root_dir)]: [root_dir] must be
    a directory ([None] stands for the working directory), as where the
    library enters it with [os.chdir]; the run only ever passes a
    directory the locator has just listed.  The directory of the archive
    is created when missing; the archive file is opened for writing, which
    replaces a file already there. *)
Definition shutil_make_archive (base_name : path) (root_dir : option path)
  : M path :=
  fun w =>
    let root := default (cwd w) root_dir in
    match fs w !! root with
    | None => (Raise (FileNotFoundError root), w)
    | Some (File _ _) => (Raise (NotADirectoryError root), w)
    | Some (Dir _) =>
        let zip_filename := path_add_suffix base_name ".zip" in
        let archive_dir := os_path_dirname base_name in
        match (if bool_decide (is_Some (fs w !! archive_dir)) then inr (fs w)
               else mkdir_parents [] archive_dir (clock w) (fs w)) with
        | inl e => (Raise e, w)
        | inr m =>
            match m !! archive_dir, m !! zip_filename with
            | Some (File _ _), _ => (Raise (NotADirectoryError zip_filename), set_fs m w)
            | _, Some (Dir _) => (Raise (IsADirectoryError zip_filename), set_fs m w)
            | _, _ =>
                (Ok zip_filename,
                 set_fs (<[zip_filename := File (zip_encode (subtree m root)) (clock w)]> m) w)
            end
        end
    end.

(** [S3.meta.client.upload_file(Filename, Bucket, Key)] *)
Definition S3_upload_file (Filename : path) (Bucket Key : string) : M unit :=
  fun w =>
    match fs w !! Filename with
    | None => (Raise (FileNotFoundError Filename), w)
    | Some (Dir _) => (Raise (IsADirectoryError Filename), w)
    | Some (File body _) =>
        match s3_fault Bucket Key body with
        | Some e => (Raise e, w)
        | None =>
            (Ok tt,
             World (fs w) (<[(Bucket, Key) := body]> (bucket_objects w))
                   (trash w) (localtime w) (clock w) (cwd w))
        end
    end.

Definition build_local_path (cfg : config) (final_path_component : string) : path :=
  os_path_join (script_directory cfg) final_path_component.

Definition create_directory (dir_path : path) : M unit :=
  e <- os_path_exists dir_path ;;
  if negb e then os_makedirs dir_path else ret tt.

Definition setup_temp_folder (cfg : config) : M unit :=
  let temp_folder_path := build_local_path cfg TEMP_DIR_NAME in
  create_directory temp_folder_path.

(** Of [setup], reading the two YAML files, the command line and the
    logging set-up produce the [config] the model is given; what is left
    is the creation of the scratch directory. *)
Definition setup (cfg : config) : M unit :=
  setup_temp_folder cfg.

(** The loop of [find_latest_modified_directory], with its two variables. *)
Fixpoint find_latest_loop (paths : list path)
    (ret_path : option path) (newest_timestamp : option Z) : M (option path) :=
  match paths with
  | [] => ret ret_path
  | p :: paths' =>
      modified_timestamp <- os_path_getmtime p ;;
      if match newest_timestamp with
         | None => true
         | Some newest => newest <? modified_timestamp
         end
      then find_latest_loop paths' (Some p) (Some modified_timestamp)
      else find_latest_loop paths' ret_path newest_timestamp
  end.

Definition find_latest_modified_directory (paths : list path) : M (option path) :=
  find_latest_loop paths None None.

Definition find_backup_folder (cfg : config) : M (option path) :=
  let backup_parent_dir := machine_backup_folder_path cfg in
  entries <- os_scandir backup_parent_dir ;;
  let backup_folders := map entry_path (List.filter is_dir entries) in
  if (length backup_folders =? 0)%nat
  then raise (Exception ("Failed to find any backup folders in "
                           +:+ os_fspath backup_parent_dir))
  else find_latest_modified_directory backup_folders.

Definition create_backup_name : M string :=
  fun w =>
    let timestamp := strftime_Ymd_HMS (localtime w) in
    (Ok (BACKUP_PREFIX +:+ "_" +:+ timestamp), w).

Definition upload_zipped_folder (cfg : config)
    (backup_base_name : string) (zipped_file_path : path) : M unit :=
  let bucket_name := wasabi_archive_bucket_name cfg in
  let s3_key := machine_name cfg +:+ "/" +:+ backup_base_name +:+ ".zip" in
  S3_upload_file zipped_file_path bucket_name s3_key.

Definition clean_temp_folder (cfg : config) : M unit :=
  let temp_dir := build_local_path cfg TEMP_DIR_NAME in
  names <- os_listdir temp_dir ;;
  let zip_files := List.filter (fun f => endswith f ".zip") names in
  for_each zip_files (fun f => os_remove (os_path_join temp_dir f)).

Definition trash_backup_folder (backup_folder : option path) : M unit :=
  send2trash backup_folder.

Definition cleanup (cfg : config) (backup_folder : option path) : M unit :=
  clean_temp_folder cfg ;;
  if TRASH_BACKUP_FOLDER cfg then trash_backup_folder backup_folder else ret tt.

Definition main (cfg : config) : M unit :=
  setup cfg ;;
  backup_folder <- find_backup_folder cfg ;;
  backup_base_name <- create_backup_name ;;
  let temp_zip_path :=
    os_path_join (build_local_path cfg TEMP_DIR_NAME) backup_base_name in
  shutil_make_archive temp_zip_path backup_folder ;;
  upload_zipped_folder cfg backup_base_name (path_add_suffix temp_zip_path ".zip") ;;
  cleanup cfg backup_folder.

End Script.

(** ** Predicates of the statements *)

Definition mtime_in (m : gmap path node) (p : path) : option Z :=
  node_mtime <$> m !! p.

(** The paths the script itself writes to: the scratch directory with the
    directories above it, and the entries right below it. *)
Definition touched (temp q : path) : Prop :=
  q `prefix_of` temp \/ exists f, q = os_path_join temp f.

(** A step that stays within the scratch directory: directories stay,
    everything not [touched] stays, and trash, bucket and clock stay. *)
Definition local_only (temp : path) (w w' : world) : Prop :=
  (forall q t, fs w !! q = Some (Dir t) -> fs w' !! q = Some (Dir t)) /\
  (forall q, ~ touched temp q -> fs w' !! q = fs w !! q) /\
  trash w' = trash w /\
  bucket_objects w' = bucket_objects w /\
  localtime w' = localtime w.

(** A step that leaves the local directories, what lies outside the
    scratch directory, and the trash as they were. *)
Definition local_fs (temp : path) (w w' : world) : Prop :=
  (forall q t, fs w !! q = Some (Dir t) -> fs w' !! q = Some (Dir t)) /\
  (forall q, ~ touched temp q -> fs w' !! q = fs w !! q) /\
  trash w' = trash w.

(** ** Sample worlds and runs *)

Definition sample_time : struct_time := StructTime 2012 5 15 15 50 45.

(** [/data] holds two runs and a file newer than both; the script lives in
    [/app], whose scratch directory holds a stray archive and a note. *)
Definition sample_world : world :=
  World (list_to_map
           [ (["data"], Dir 1);
             (["data"; "run_a"], Dir 5);
             (["data"; "run_b"], Dir 9);
             (["data"; "run_b"; "f.txt"], File [x68; x69] 3);
             (["data"; "z.txt"], File [x00] 30);
             (["app"], Dir 1);
             (["app"; "temp"], Dir 2);
             (["app"; "temp"; "old.zip"], File [x50; x4b] 2);
             (["app"; "temp"; "keep.txt"], File [] 2) ])
        ∅ [] sample_time 100 ["app"].

Definition sample_config : config :=
  Config ["data"] "box" "https://s3.wasabisys.com" "archive" false ["app"].

(** The same configuration, started with [--trashBackupFolder]. *)
Definition trashing_config : config :=
  Config ["data"] "box" "https://s3.wasabisys.com" "archive" true ["app"].

(** Two runs of the same age. *)
Definition tied_world : world :=
  World (list_to_map
           [ (["data"], Dir 1);
             (["data"; "run_a"], Dir 7);
             (["data"; "run_b"], Dir 7);
             (["data"; "run_c"], Dir 4) ])
        ∅ [] sample_time 100 ["app"].

(** A parent directory with files only. *)
Definition files_only_world : world :=
  World (list_to_map
           [ (["data"], Dir 1);
             (["data"; "notes.txt"], File [x00] 30) ])
        ∅ [] sample_time 100 ["app"].

(** A scratch directory in which one entry named [*.zip] is a directory. *)
Definition zip_named_directory_world : world :=
  World (list_to_map
           [ (["app"], Dir 1);
             (["app"; "temp"], Dir 2);
             (["app"; "temp"; "b.zip"], Dir 3);
             (["app"; "temp"; "a.zip"], File [x50; x4b] 2);
             (["app"; "temp"; "keep.txt"], File [] 2) ])
        ∅ [] sample_time 100 ["app"].

(** A stand-in for the zip writer: the contents of the files, in order. *)
Definition sample_zip_encode (entries : list (path * node)) : data :=
  flat_map (fun e => match e.2 with File c _ => c | Dir _ => [] end) entries.

Definition network_up : string -> string -> data -> option exn :=
  fun _ _ _ => None.

Definition network_down : string -> string -> data -> option exn :=
  fun _ _ _ => Some (S3UploadFailedError "connection reset").

(** The script sits in the directory it is told to back up: the scratch
    directory is then the only candidate. *)
Definition self_backup_config : config :=
  Config ["app"] "box" "https://s3.wasabisys.com" "archive" false ["app"].

Definition self_backup_world : world :=
  World (list_to_map
           [ (["app"], Dir 1);
             (["app"; "temp"], Dir 2);
             (["app"; "temp"; "old.zip"], File [x50; x4b] 2) ])
        ∅ [] sample_time 100 ["app"].

(** ** Further sample worlds *)

(** A run directory that holds a newer directory further down. *)
Definition nested_world : world :=
  World (list_to_map
           [ (["data"], Dir 1);
             (["data"; "run_a"], Dir 5);
             (["data"; "run_a"; "cache"], Dir 50);
             (["data"; "run_b"], Dir 9);
             (["app"], Dir 1) ])
        ∅ [] sample_time 100 ["app"].


(** The script directory exists, its scratch directory does not yet. *)
Definition first_run_world : world :=
  World (list_to_map
           [ (["data"], Dir 1);
             (["data"; "run_a"], Dir 5);
             (["srv"], Dir 1) ])
        ∅ [] sample_time 100 ["srv"].

(** A script directory two levels down, of which only the top exists. *)
Definition deep_script_config : config :=
  Config ["data"] "box" "https://s3.wasabisys.com" "archive" false
         ["srv"; "tools"; "backup"].

(** Where the scratch directory should go, [temp] is a regular file. *)
Definition scratch_is_file_world : world :=
  World (list_to_map
           [ (["data"], Dir 1);
             (["data"; "run_a"], Dir 5);
             (["app"], Dir 1);
             (["app"; "temp"], File [x00] 2) ])
        ∅ [] sample_time 100 ["app"].

(** The script directory itself is shadowed by a regular file. *)
Definition script_dir_is_file_world : world :=
  World (list_to_map
           [ (["data"], Dir 1);
             (["data"; "run_a"], Dir 5);
             (["app"], File [x00] 1) ])
        ∅ [] sample_time 100 ["data"].

(** A configuration whose backup root does not exist in [first_run_world]. *)
Definition missing_parent_config : config :=
  Config ["backups"] "box" "https://s3.wasabisys.com" "archive" false ["srv"].

(** The number a string of decimal digits writes. *)
Definition decimal_value (s : string) : nat :=
  match NilEmpty.uint_of_string s with
  | Some d => Nat.of_uint d
  | None => 0%nat
  end.

(** Every field of the time but the year takes two digits at most, as
    it does for every time [time.localtime] gives. *)
Definition two_digit_fields (t : struct_time) : Prop :=
  (tm_mon t < 100 /\ tm_mday t < 100 /\ tm_hour t < 100 /\
   tm_min t < 100 /\ tm_sec t < 100)%nat.

(** [sample_world] one second later. *)
Definition later_world : world :=
  World (fs sample_world) ∅ [] (StructTime 2012 5 15 15 50 46) 101 ["app"].

(** [sample_world] with the timestamps of May 2012 that go with
    [sample_time]. *)
Definition recent_world : world :=
  World (list_to_map
           [ (["data"], Dir 1337000001);
             (["data"; "run_a"], Dir 1337000005);
             (["data"; "run_b"], Dir 1337000009);
             (["data"; "run_b"; "f.txt"], File [x68; x69] 1337000003);
             (["data"; "z.txt"], File [x00] 1337000030);
             (["app"], Dir 1337000001);
             (["app"; "temp"], Dir 1337000002);
             (["app"; "temp"; "old.zip"], File [x50; x4b] 1337000002);
             (["app"; "temp"; "keep.txt"], File [] 1337000002) ])
        ∅ [] sample_time 1337097045 ["app"].

(** ** Reasoning about paths and directory listings *)

Lemma string_length_app (a b : string) :
  String.length (a +:+ b) = (String.length a + String.length b)%nat.
Proof. induction a as [|c a IH]; simpl; [done|]. by rewrite IH. Qed.

Lemma substring_all (b : string) : String.substring 0 (String.length b) b = b.
Proof. induction b as [|c b IH]; simpl; [done|]. by rewrite IH. Qed.

Lemma substring_after (a b : string) :
  String.substring (String.length a) (String.length b) (a +:+ b) = b.
Proof. induction a as [|c a IH]; simpl; [apply substring_all|done]. Qed.

Lemma substring_split (s : string) : forall k : nat,
  (k <= String.length s)%nat ->
  s = String.substring 0 k s +:+ String.substring k (String.length s - k) s.
Proof.
  induction s as [|c s IH]; intros k Hk; simpl in *.
  - by destruct k.
  - destruct k as [|k]; simpl.
    + by rewrite substring_all.
    + rewrite (IH k) at 1 by lia. reflexivity.
Qed.

(** [endswith] is Python's [str.endswith]: the string is some prefix
    followed by the suffix. *)
Lemma endswith_spec (s suffix : string) :
  endswith s suffix = true <-> exists pre, s = pre +:+ suffix.
Proof.
  unfold endswith. rewrite andb_true_iff, !bool_decide_eq_true. split.
  - intros [Hsub Hlen].
    exists (String.substring 0 (String.length s - String.length suffix) s).
    rewrite (substring_split s (String.length s - String.length suffix)) at 1
      by lia.
    f_equal. rewrite <- Hsub at 3. f_equal. lia.
  - intros [pre ->]. rewrite string_length_app. split; [|lia].
    replace (String.length pre + String.length suffix - String.length suffix)%nat
      with (String.length pre) by lia.
    apply substring_after.
Qed.

Example endswith_examples :
  endswith "backup_20120515-155045.zip" ".zip" = true /\
  endswith ".zip" ".zip" = true /\
  endswith "zip" ".zip" = false /\
  endswith "notes.zip.txt" ".zip" = false.
Proof. repeat split. Qed.

Example create_backup_name_example :
  (create_backup_name sample_world).1 = Ok "backup_20120515-155045".
Proof. reflexivity. Qed.

Lemma mtime_in_Some (m : gmap path node) p n :
  m !! p = Some n -> mtime_in m p = Some (node_mtime n).
Proof. intros H. unfold mtime_in. by rewrite H. Qed.

Lemma mtime_in_Dir (m : gmap path node) p t tr :
  m !! p = Some (Dir t) -> mtime_in m p = Some tr -> t = tr.
Proof. intros H. unfold mtime_in. rewrite H. by intros [= ->]. Qed.

Lemma strip_prefix_Some d p r : strip_prefix d p = Some r <-> p = d ++ r.
Proof.
  revert p. induction d as [|x d IH]; intros p; simpl.
  - split; congruence.
  - destruct p as [|y p]; [split; discriminate|].
    case_decide as Hxy.
    + subst y. rewrite IH. split; [intros ->; done|intros [= ->]; done].
    + split; [discriminate|intros [= -> _]; done].
Qed.

Lemma strip_prefix_app d r : strip_prefix d (d ++ r) = Some r.
Proof. by apply strip_prefix_Some. Qed.

Lemma is_under_true root p : is_under root p = true <-> exists r, p = root ++ r.
Proof.
  unfold is_under. rewrite bool_decide_eq_true. split.
  - intros [r Hr]. exists r. by apply strip_prefix_Some.
  - intros [r ->]. exists r. apply strip_prefix_app.
Qed.

Lemma elem_of_children (m : gmap path node) d name n :
  (name, n) ∈ children m d <-> m !! (d ++ [name]) = Some n.
Proof.
  unfold children. rewrite list_elem_of_omap. split.
  - intros [[k v] [Hin Hm]]. simpl in Hm.
    apply elem_of_map_to_list in Hin.
    destruct (strip_prefix d k) as [[|c [|c' r]]|] eqn:Hs; try discriminate.
    injection Hm as -> ->. apply strip_prefix_Some in Hs. by subst k.
  - intros Hl. exists (d ++ [name], n). split.
    + by apply elem_of_map_to_list.
    + simpl. by rewrite strip_prefix_app.
Qed.

(** What [find_backup_folder] keeps of a scan: the paths of the
    directories right below [d]. *)
Lemma elem_of_scanned_directories (m : gmap path node) d p :
  p ∈ map entry_path
        (List.filter is_dir
           (map (fun e : string * node =>
                   Entry e.1 (os_path_join d e.1) (node_is_dir e.2))
                (children m d)))
  <-> exists name t, p = d ++ [name] /\ m !! p = Some (Dir t).
Proof.
  rewrite list_elem_of_In, in_map_iff. split.
  - intros [e [<- He]]. apply filter_In in He as [He Hdir].
    apply in_map_iff in He as [[name n] [<- Hc]]. simpl in *.
    apply list_elem_of_In, elem_of_children in Hc.
    destruct n as [|t]; [discriminate|]. by exists name, t.
  - intros (name & t & -> & Hl).
    exists (Entry name (os_path_join d name) true). split; [done|].
    apply filter_In. split; [|done].
    apply in_map_iff. exists (name, Dir t). split; [done|].
    by apply list_elem_of_In, elem_of_children.
Qed.

Lemma elem_of_subtree (m : gmap path node) root rel n :
  (rel, n) ∈ subtree m root <-> rel <> [] /\ m !! (root ++ rel) = Some n.
Proof.
  unfold subtree. rewrite list_elem_of_omap. split.
  - intros [[k v] [Hin Hm]]. simpl in Hm.
    apply elem_of_map_to_list in Hin.
    destruct (strip_prefix root k) as [[|c r]|] eqn:Hs; try discriminate.
    injection Hm as <- ->. apply strip_prefix_Some in Hs. by subst k.
  - intros [Hne Hl]. exists (root ++ rel, n). split.
    + by apply elem_of_map_to_list.
    + simpl. rewrite strip_prefix_app. by destruct rel.
Qed.

(** ** The locator *)

Lemma getmtime_Some w p n :
  fs w !! p = Some n -> os_path_getmtime p w = (Ok (node_mtime n), w).
Proof. intros H. unfold os_path_getmtime. by rewrite H. Qed.

Lemma getmtime_None w p :
  fs w !! p = None -> os_path_getmtime p w = (Raise (FileNotFoundError p), w).
Proof. intros H. unfold os_path_getmtime. by rewrite H. Qed.

(** The loop only reads the filesystem. *)
Lemma find_latest_loop_reads paths : forall a t w,
  (find_latest_loop paths a t w).2 = w.
Proof.
  induction paths as [|p paths IH]; intros a t w; simpl; [done|].
  unfold bind. destruct (fs w !! p) as [n|] eqn:Hp.
  - rewrite (getmtime_Some _ _ _ Hp).
    destruct (match t with Some newest => newest <? node_mtime n | None => true end);
      apply IH.
  - by rewrite (getmtime_None _ _ Hp).
Qed.

(** Entered with a current best [a] of timestamp [ta], the loop over
    existing paths ends either with [a], nothing in the list being newer,
    or with the first entry of the list that is newest and newer than [a]. *)
Lemma find_latest_loop_spec paths : forall a ta w,
  (forall p, p ∈ paths -> is_Some (fs w !! p)) ->
  exists r,
    find_latest_loop paths (Some a) (Some ta) w = (Ok (Some r), w) /\
    ((r = a /\ forall q tq, q ∈ paths -> mtime_in (fs w) q = Some tq -> tq <= ta)
     \/ exists l1 l2 tr,
          paths = l1 ++ r :: l2 /\ mtime_in (fs w) r = Some tr /\ ta < tr /\
          (forall q tq, q ∈ l1 -> mtime_in (fs w) q = Some tq -> tq < tr) /\
          (forall q tq, q ∈ l2 -> mtime_in (fs w) q = Some tq -> tq <= tr)).
Proof.
  induction paths as [|p paths IH]; intros a ta w Hex.
  - exists a. split; [done|]. left. split; [done|].
    intros q tq Hq. by apply elem_of_nil in Hq.
  - destruct (Hex p) as [n Hn]; [left|].
    assert (Hex' : forall q, q ∈ paths -> is_Some (fs w !! q))
      by (intros q Hq; apply Hex; by right).
    assert (Hmp : mtime_in (fs w) p = Some (node_mtime n))
      by (unfold mtime_in; by rewrite Hn).
    simpl. unfold bind. rewrite (getmtime_Some _ _ _ Hn).
    destruct (ta <? node_mtime n) eqn:Hlt.
    + apply Z.ltb_lt in Hlt.
      destruct (IH p (node_mtime n) w Hex') as (r & Hr & Hcase).
      exists r. split; [done|]. right.
      destruct Hcase as [[-> Hall]|(l1 & l2 & tr & -> & Htr & Hgt & H1 & H2)].
      * exists [], paths, (node_mtime n). repeat split; try done.
        intros q tq Hq. by apply elem_of_nil in Hq.
      * exists (p :: l1), l2, tr. repeat split; try done; [lia|].
        intros q tq Hq Hmq. apply elem_of_cons in Hq as [->|Hq].
        -- rewrite Hmp in Hmq. injection Hmq as <-. done.
        -- by apply (H1 q).
    + apply Z.ltb_ge in Hlt.
      destruct (IH a ta w Hex') as (r & Hr & Hcase).
      exists r. split; [done|].
      destruct Hcase as [[-> Hall]|(l1 & l2 & tr & -> & Htr & Hgt & H1 & H2)].
      * left. split; [done|]. intros q tq Hq Hmq.
        apply elem_of_cons in Hq as [->|Hq].
        -- rewrite Hmp in Hmq. injection Hmq as <-. done.
        -- by apply (Hall q).
      * right. exists (p :: l1), l2, tr. repeat split; try done.
        intros q tq Hq Hmq. apply elem_of_cons in Hq as [->|Hq].
        -- rewrite Hmp in Hmq. injection Hmq as <-. lia.
        -- by apply (H1 q).
Qed.

(** On a non-empty list of existing paths the function returns the first
    entry whose timestamp no other entry exceeds. *)
Lemma find_latest_modified_directory_spec paths w :
  paths <> [] ->
  (forall p, p ∈ paths -> is_Some (fs w !! p)) ->
  exists r l1 l2 tr,
    find_latest_modified_directory paths w = (Ok (Some r), w) /\
    paths = l1 ++ r :: l2 /\ mtime_in (fs w) r = Some tr /\
    (forall q tq, q ∈ l1 -> mtime_in (fs w) q = Some tq -> tq < tr) /\
    (forall q tq, q ∈ l2 -> mtime_in (fs w) q = Some tq -> tq <= tr).
Proof.
  destruct paths as [|p paths]; [done|]. intros _ Hex.
  destruct (Hex p) as [n Hn]; [left|].
  assert (Hex' : forall q, q ∈ paths -> is_Some (fs w !! q))
    by (intros q Hq; apply Hex; by right).
  assert (Hmp : mtime_in (fs w) p = Some (node_mtime n))
    by (unfold mtime_in; by rewrite Hn).
  unfold find_latest_modified_directory. simpl. unfold bind.
  rewrite (getmtime_Some _ _ _ Hn).
  destruct (find_latest_loop_spec paths p (node_mtime n) w Hex')
    as (r & Hr & Hcase).
  destruct Hcase as [[-> Hall]|(l1 & l2 & tr & -> & Htr & Hgt & H1 & H2)].
  - exists p, [], paths, (node_mtime n). repeat split; try done.
    intros q tq Hq. by apply elem_of_nil in Hq.
  - exists r, (p :: l1), l2, tr. repeat split; try done.
    intros q tq Hq Hmq. apply elem_of_cons in Hq as [->|Hq].
    + rewrite Hmp in Hmq. injection Hmq as <-. done.
    + by apply (H1 q).
Qed.

Lemma scandir_Dir w d t :
  fs w !! d = Some (Dir t) ->
  os_scandir d w =
    (Ok (map (fun e : string * node =>
                Entry e.1 (os_path_join d e.1) (node_is_dir e.2))
             (children (fs w) d)), w).
Proof. intros H. unfold os_scandir. by rewrite H. Qed.

(** [find_backup_folder] after a scan that succeeded. *)
Lemma find_backup_folder_scanned cfg w entries :
  os_scandir (machine_backup_folder_path cfg) w = (Ok entries, w) ->
  find_backup_folder cfg w =
    (if (length (map entry_path (List.filter is_dir entries)) =? 0)%nat
     then raise (Exception ("Failed to find any backup folders in "
                              +:+ os_fspath (machine_backup_folder_path cfg)))
     else find_latest_modified_directory
            (map entry_path (List.filter is_dir entries))) w.
Proof. intros H. unfold find_backup_folder, bind. by rewrite H. Qed.

Lemma length_eqb_0 {A} (l : list A) : (length l =? 0)%nat = true <-> l = [].
Proof. destruct l; simpl; split; congruence. Qed.

Lemma scandir_inv w d r w' :
  os_scandir d w = (r, w') ->
  w' = w /\
  (forall entries, r = Ok entries ->
     exists t, fs w !! d = Some (Dir t) /\
       entries = map (fun e : string * node =>
                        Entry e.1 (os_path_join d e.1) (node_is_dir e.2))
                     (children (fs w) d)).
Proof.
  unfold os_scandir. intros H.
  destruct (fs w !! d) as [[c t|t]|]; injection H as <- <-;
    (split; [done|]); intros entries He; try discriminate.
  injection He as <-. by exists t.
Qed.

Lemma scanned_directories_exist (m : gmap path node) d p :
  p ∈ map entry_path
        (List.filter is_dir
           (map (fun e : string * node =>
                   Entry e.1 (os_path_join d e.1) (node_is_dir e.2))
                (children m d))) ->
  is_Some (m !! p).
Proof.
  intros Hp. apply elem_of_scanned_directories in Hp as (name & t & -> & Hl).
  by exists (Dir t).
Qed.

(** ** C1, C2, C9, C10: the backup locator *)

(** C1.  When the directories right below the configured parent directory
    have pairwise distinct modification times, [find_backup_folder] returns
    the one whose modification time is the largest; entries that are files
    play no part, whatever their age. *)
Theorem find_backup_folder_returns_latest cfg w tparent name tp :
  fs w !! machine_backup_folder_path cfg = Some (Dir tparent) ->
  (forall n1 n2 t1 t2,
     fs w !! os_path_join (machine_backup_folder_path cfg) n1 = Some (Dir t1) ->
     fs w !! os_path_join (machine_backup_folder_path cfg) n2 = Some (Dir t2) ->
     n1 <> n2 -> t1 <> t2) ->
  fs w !! os_path_join (machine_backup_folder_path cfg) name = Some (Dir tp) ->
  (forall n t,
     fs w !! os_path_join (machine_backup_folder_path cfg) n = Some (Dir t) ->
     t <= tp) ->
  find_backup_folder cfg w =
    (Ok (Some (os_path_join (machine_backup_folder_path cfg) name)), w).
Proof.
  set (d := machine_backup_folder_path cfg).
  intros Hparent Hdistinct Hname Hmax.
  rewrite (find_backup_folder_scanned _ _ _ (scandir_Dir _ _ _ Hparent)).
  fold d.
  set (L := map entry_path _).
  assert (HpL : os_path_join d name ∈ L).
  { apply elem_of_scanned_directories. by exists name, tp. }
  destruct (length L =? 0)%nat eqn:Hlen.
  { apply length_eqb_0 in Hlen. rewrite Hlen in HpL. by apply elem_of_nil in HpL. }
  assert (HL : L <> []) by (intros E; rewrite E in HpL; by apply elem_of_nil in HpL).
  destruct (find_latest_modified_directory_spec L w HL)
    as (r & l1 & l2 & tr & Hrun & Hsplit & Htr & H1 & H2).
  { intros p Hp. by apply scanned_directories_exist in Hp. }
  rewrite Hrun. do 2 f_equal. f_equal.
  assert (HrL : r ∈ L).
  { rewrite Hsplit. apply elem_of_app. right. left. }
  apply elem_of_scanned_directories in HrL as (nr & t' & -> & Hr).
  assert (t' = tr) as -> by exact (mtime_in_Dir _ _ _ _ Hr Htr).
  assert (Hmp : mtime_in (fs w) (os_path_join d name) = Some tp)
    by exact (mtime_in_Some _ _ _ Hname).
  pose proof (Hmax nr tr Hr) as Hle.
  rewrite Hsplit in HpL.
  apply elem_of_app in HpL as [Hin|Hin].
  - pose proof (H1 _ _ Hin Hmp). lia.
  - apply elem_of_cons in Hin as [Heq|Hin]; [done|].
    pose proof (H2 _ _ Hin Hmp) as Hge.
    destruct (decide (nr = name)) as [->|Hne]; [done|].
    exfalso. apply (Hdistinct nr name tr tp Hr Hname Hne). lia.
Qed.

(** C2.  When the parent directory has no directory right below it, the
    locator raises the exception that reports that no backup folder was
    found, and returns no path. *)
Theorem find_backup_folder_no_candidates cfg w tparent :
  fs w !! machine_backup_folder_path cfg = Some (Dir tparent) ->
  (forall n t,
     fs w !! os_path_join (machine_backup_folder_path cfg) n <> Some (Dir t)) ->
  find_backup_folder cfg w =
    (Raise (Exception ("Failed to find any backup folders in "
                         +:+ os_fspath (machine_backup_folder_path cfg))), w).
Proof.
  intros Hparent Hnone.
  rewrite (find_backup_folder_scanned _ _ _ (scandir_Dir _ _ _ Hparent)).
  set (L := map entry_path _).
  assert (HL : L = []).
  { destruct L as [|p L'] eqn:E; [done|]. exfalso.
    assert (Hp : p ∈ L) by (rewrite E; left).
    apply elem_of_scanned_directories in Hp as (n & t & -> & Hl).
    by apply (Hnone n t). }
  rewrite HL. reflexivity.
Qed.

(** C9.  Whenever the scan yields at least one directory, the locator
    returns one path: the first directory of the scan that no other
    exceeds in modification time.  Every directory scanned before it is
    strictly older, every directory scanned after it is at most as recent,
    so among several directories that share the greatest modification time
    the one scanned first is selected. *)
Theorem find_backup_folder_first_of_ties cfg w entries :
  os_scandir (machine_backup_folder_path cfg) w = (Ok entries, w) ->
  map entry_path (List.filter is_dir entries) <> [] ->
  exists r l1 l2 tr,
    find_backup_folder cfg w = (Ok (Some r), w) /\
    map entry_path (List.filter is_dir entries) = l1 ++ r :: l2 /\
    mtime_in (fs w) r = Some tr /\
    (forall q tq, q ∈ l1 -> mtime_in (fs w) q = Some tq -> tq < tr) /\
    (forall q tq, q ∈ l2 -> mtime_in (fs w) q = Some tq -> tq <= tr).
Proof.
  intros Hscan HL.
  rewrite (find_backup_folder_scanned _ _ _ Hscan).
  destruct (scandir_inv _ _ _ _ Hscan) as [_ Hent].
  destruct (Hent entries eq_refl) as (t & Hparent & ->).
  destruct (length _ =? 0)%nat eqn:Hlen.
  { by apply length_eqb_0 in Hlen. }
  apply find_latest_modified_directory_spec; [done|].
  intros p Hp. by apply scanned_directories_exist in Hp.
Qed.

Lemma dir_child_listed (m : gmap path node) d n t :
  m !! os_path_join d n = Some (Dir t) -> (n, Dir t) ∈ children m d.
Proof. intros H. by apply elem_of_children. Qed.

(** Case analysis on membership in a listing, after computing the listing. *)
Ltac listed H :=
  match type of H with
  | _ ∈ ?c => let v := eval vm_compute in c in change c with v in H
  end;
  repeat (first [ apply elem_of_nil in H; destruct H
                | apply elem_of_cons in H as [H|H]; [try discriminate H|] ]).

Lemma find_backup_folder_returns_latest_witness :
  find_backup_folder sample_config sample_world
  = (Ok (Some ["data"; "run_b"]), sample_world).
Proof.
  apply (find_backup_folder_returns_latest sample_config sample_world 1 "run_b" 9).
  - reflexivity.
  - intros n1 n2 t1 t2 H1 H2 Hne.
    apply dir_child_listed in H1, H2.
    listed H1; listed H2; congruence.
  - reflexivity.
  - intros n t H. apply dir_child_listed in H.
    listed H; injection H as -> ->; lia.
Defined.

Lemma find_backup_folder_no_candidates_witness :
  find_backup_folder sample_config files_only_world
  = (Raise (Exception "Failed to find any backup folders in /data"),
     files_only_world).
Proof.
  apply (find_backup_folder_no_candidates sample_config files_only_world 1).
  - reflexivity.
  - intros n t H. apply dir_child_listed in H.
    listed H.
Defined.

Lemma find_backup_folder_first_of_ties_witness :
  exists r l1 l2 tr,
    find_backup_folder sample_config tied_world = (Ok (Some r), tied_world) /\
    [["data"; "run_c"]; ["data"; "run_b"]; ["data"; "run_a"]] = l1 ++ r :: l2 /\
    mtime_in (fs tied_world) r = Some tr /\
    (forall q tq, q ∈ l1 -> mtime_in (fs tied_world) q = Some tq -> tq < tr) /\
    (forall q tq, q ∈ l2 -> mtime_in (fs tied_world) q = Some tq -> tq <= tr).
Proof.
  apply (find_backup_folder_first_of_ties sample_config tied_world
           [Entry "run_c" ["data"; "run_c"] true;
            Entry "run_b" ["data"; "run_b"] true;
            Entry "run_a" ["data"; "run_a"] true]).
  - vm_compute. reflexivity.
  - discriminate.
Defined.

(** In [tied_world] the scan meets [run_c], [run_b], [run_a] in this order:
    of the two newest, [run_b] comes first and is the one returned. *)
Example tied_world_selection :
  (find_backup_folder sample_config tied_world).1 = Ok (Some ["data"; "run_b"]).
Proof. vm_compute. reflexivity. Qed.

(** C10, as amended.  On every list of paths that exist,
    [find_latest_modified_directory] returns without touching the world:
    [None] for the empty list and an element of the list otherwise.  And
    [find_backup_folder] never returns [None]: it raises on an empty scan
    before the call, and the paths of a scan exist. *)
Theorem find_latest_modified_directory_total_on_existing paths w cfg :
  ((forall p, p ∈ paths -> is_Some (fs w !! p)) ->
   exists r, find_latest_modified_directory paths w = (Ok r, w) /\
     (paths = [] -> r = None) /\
     (paths <> [] -> exists p, r = Some p /\ p ∈ paths)) /\
  (forall w', find_backup_folder cfg w <> (Ok None, w')).
Proof.
  split.
  - intros Hex. destruct paths as [|p0 paths'] eqn:E.
    + exists None. repeat split; done.
    + destruct (find_latest_modified_directory_spec (p0 :: paths') w)
        as (r & l1 & l2 & tr & Hrun & Hsplit & _); [done|done|].
      exists (Some r). repeat split; [done|done|].
      intros _. exists r. split; [done|].
      rewrite Hsplit. apply elem_of_app. right. left.
  - intros w' Hnone.
    unfold find_backup_folder, bind in Hnone.
    destruct (os_scandir (machine_backup_folder_path cfg) w) as [r w1] eqn:Hscan.
    destruct (scandir_inv _ _ _ _ Hscan) as [-> Hent].
    destruct r as [entries|e]; [|discriminate].
    destruct (Hent entries eq_refl) as (t & Hparent & ->).
    destruct (length _ =? 0)%nat eqn:Hlen; [discriminate|].
    destruct (find_latest_modified_directory_spec
                (map entry_path
                   (List.filter is_dir
                      (map (fun e : string * node =>
                              Entry e.1 (os_path_join (machine_backup_folder_path cfg) e.1)
                                    (node_is_dir e.2))
                           (children (fs w) (machine_backup_folder_path cfg))))) w)
      as (r & l1 & l2 & tr & Hrun & _).
    + intros E. rewrite E in Hlen. discriminate.
    + intros p Hp. by apply scanned_directories_exist in Hp.
    + rewrite Hrun in Hnone. discriminate.
Qed.

Lemma find_latest_modified_directory_total_on_existing_witness :
  exists r,
    find_latest_modified_directory [["data"; "run_a"]; ["data"; "z.txt"]] sample_world
    = (Ok r, sample_world) /\
    exists p, r = Some p /\ p ∈ [["data"; "run_a"]; ["data"; "z.txt"]].
Proof.
  destruct (find_latest_modified_directory_total_on_existing
              [["data"; "run_a"]; ["data"; "z.txt"]] sample_world sample_config)
    as [Htotal _].
  destruct Htotal as (r & Hrun & _ & Hsome).
  - intros p Hp. listed Hp; subst p; vm_compute; eauto.
  - exists r. split; [exact Hrun|]. apply Hsome. discriminate.
Defined.

(** C10 as stated fails: a list may name a path that does not exist, and
    then [os.path.getmtime] raises instead of an element being returned. *)
Lemma find_latest_modified_directory_raises_on_missing :
  ~ (forall paths w, paths <> [] ->
       exists p w', find_latest_modified_directory paths w = (Ok (Some p), w')
                    /\ p ∈ paths)
  /\ find_latest_modified_directory [["data"; "gone"]] sample_world
     = (Raise (FileNotFoundError ["data"; "gone"]), sample_world).
Proof.
  assert (Hrun : find_latest_modified_directory [["data"; "gone"]] sample_world
                 = (Raise (FileNotFoundError ["data"; "gone"]), sample_world))
    by (vm_compute; reflexivity).
  split; [|exact Hrun].
  intros Hclaim.
  destruct (Hclaim [["data"; "gone"]] sample_world) as (p & w' & Hp & _);
    [discriminate|].
  rewrite Hrun in Hp. discriminate.
Qed.

(** ** The sweep of the scratch directory *)

Lemma os_path_join_inj d f g : os_path_join d f = os_path_join d g -> f = g.
Proof. unfold os_path_join. intros H. apply app_inv_head in H. congruence. Qed.

Lemma children_names_NoDup (m : gmap path node) d :
  NoDup (map fst (children m d)).
Proof.
  unfold children.
  pose proof (NoDup_fst_map_to_list m) as Hnd.
  induction (map_to_list m) as [|[k v] l IH]; simpl; [constructor|].
  apply NoDup_cons in Hnd as [Hk Hnd]. specialize (IH Hnd).
  destruct (strip_prefix d k) as [[|c [|c' r]]|] eqn:Hs; simpl; try done.
  apply strip_prefix_Some in Hs. subst k.
  constructor; [|done].
  intros Hin. apply Hk.
  apply list_elem_of_fmap in Hin as [[c2 n2] [Hc Hin]]. simpl in Hc. subst c2.
  apply list_elem_of_omap in Hin as [[k2 v2] [Hin2 Hm]]. simpl in Hm.
  destruct (strip_prefix d k2) as [[|c3 [|c4 r]]|] eqn:Hs2; try discriminate.
  injection Hm as -> ->. apply strip_prefix_Some in Hs2. subst k2.
  apply list_elem_of_fmap. by exists (d ++ [c], n2).
Qed.

Lemma remove_inv p w r w' :
  os_remove p w = (r, w') ->
  (r = Ok tt /\ w' = set_fs (delete p (fs w)) w /\
   exists c t, fs w !! p = Some (File c t))
  \/ (w' = w /\ exists e, r = Raise e).
Proof.
  unfold os_remove. intros H.
  destruct (fs w !! p) as [[c t|t]|]; injection H as <- <-; eauto 10.
Qed.

(** Whatever the loop of removals does, an entry is either left as it was
    or was a regular file named in the list and is gone. *)
Lemma remove_loop_frame temp names : forall w r w',
  for_each names (fun f => os_remove (os_path_join temp f)) w = (r, w') ->
  bucket_objects w' = bucket_objects w /\ trash w' = trash w /\
  forall q,
    fs w' !! q = fs w !! q
    \/ (fs w' !! q = None /\
        exists f c t, f ∈ names /\ q = os_path_join temp f /\
                      fs w !! q = Some (File c t)).
Proof.
  induction names as [|f names IH]; intros w r w' Hrun; simpl in Hrun.
  - injection Hrun as <- <-. auto.
  - unfold bind in Hrun.
    destruct (os_remove (os_path_join temp f) w) as [r1 w1] eqn:Hrm.
    apply remove_inv in Hrm as [(-> & -> & c & t & Hf)|(-> & e & ->)].
    + apply IH in Hrun as (Hb & Ht & Hfs). simpl in *.
      repeat split; [done|done|]. intros q.
      destruct (decide (q = os_path_join temp f)) as [->|Hne].
      * right. split.
        -- destruct (Hfs (os_path_join temp f)) as [E|[E _]]; [|done].
           by rewrite E, lookup_delete_eq.
        -- exists f, c, t. split; [left|done].
      * destruct (Hfs q) as [E|[E (g & c' & t' & Hg & -> & Hl)]].
        -- left. by rewrite E, lookup_delete_ne.
        -- right. split; [done|]. exists g, c', t'.
           split; [by right|]. split; [done|].
           by rewrite lookup_delete_ne in Hl.
    + injection Hrun as <- <-. auto.
Qed.

(** When the names are distinct and each names a regular file, every
    removal succeeds and none of the files is left. *)
Lemma remove_loop_ok temp names :
  NoDup names -> forall w,
  (forall f, f ∈ names ->
     exists c t, fs w !! os_path_join temp f = Some (File c t)) ->
  exists w',
    for_each names (fun f => os_remove (os_path_join temp f)) w = (Ok tt, w') /\
    forall f, f ∈ names -> fs w' !! os_path_join temp f = None.
Proof.
  induction 1 as [|f names Hnotin Hnd IH]; intros w Hfiles; simpl.
  - exists w. split; [done|]. intros f Hf. by apply elem_of_nil in Hf.
  - destruct (Hfiles f) as (c & t & Hf); [left|].
    unfold bind, os_remove at 1. rewrite Hf.
    destruct (IH (set_fs (delete (os_path_join temp f) (fs w)) w))
      as (w' & Hrun & Hgone).
    { intros g Hg. destruct (Hfiles g) as (c' & t' & Hl); [by right|].
      exists c', t'. simpl. rewrite lookup_delete_ne; [done|].
      intros E. apply os_path_join_inj in E. by subst g. }
    exists w'. split; [done|].
    intros g Hg. apply elem_of_cons in Hg as [->|Hg]; [|by apply Hgone].
    destruct (remove_loop_frame _ _ _ _ _ Hrun) as (_ & _ & Hfs).
    destruct (Hfs (os_path_join temp f)) as [E|[E _]]; [|done].
    rewrite E. simpl. apply lookup_delete_eq.
Qed.

Lemma listdir_inv d w r w' :
  os_listdir d w = (r, w') ->
  w' = w /\
  (forall names, r = Ok names ->
     exists t, fs w !! d = Some (Dir t) /\ names = map fst (children (fs w) d)).
Proof.
  unfold os_listdir. intros H.
  destruct (fs w !! d) as [[c t|t]|]; injection H as <- <-;
    (split; [done|]); intros names He; try discriminate.
  injection He as <-. by exists t.
Qed.

Lemma elem_of_zip_files (m : gmap path node) d f :
  f ∈ List.filter (fun f => endswith f ".zip") (map fst (children m d))
  <-> endswith f ".zip" = true /\ is_Some (m !! os_path_join d f).
Proof.
  rewrite list_elem_of_In, filter_In, <- list_elem_of_In, list_elem_of_fmap.
  split.
  - intros [[[g n] [-> Hin]] He]. split; [done|].
    apply elem_of_children in Hin. by exists n.
  - intros [He [n Hn]]. split; [|done].
    exists (f, n). split; [done|]. by apply elem_of_children.
Qed.

(** The sweep never touches the bucket, the trash, or an entry that is
    not a regular file of the scratch directory named [*.zip]. *)
Lemma clean_temp_folder_frame cfg w r w' :
  clean_temp_folder cfg w = (r, w') ->
  bucket_objects w' = bucket_objects w /\ trash w' = trash w /\
  forall q,
    fs w' !! q = fs w !! q
    \/ (fs w' !! q = None /\
        exists f c t, endswith f ".zip" = true /\
          q = os_path_join (build_local_path cfg TEMP_DIR_NAME) f /\
          fs w !! q = Some (File c t)).
Proof.
  unfold clean_temp_folder, bind. intros Hrun.
  destruct (os_listdir _ w) as [rl wl] eqn:Hls.
  destruct (listdir_inv _ _ _ _ Hls) as [-> Hnames].
  destruct rl as [names|e]; [|injection Hrun as <- <-; auto].
  destruct (Hnames names eq_refl) as (t & Htemp & ->).
  apply remove_loop_frame in Hrun as (Hb & Ht & Hfs).
  repeat split; [done|done|]. intros q.
  destruct (Hfs q) as [E|[E (f & c & t' & Hf & -> & Hl)]]; [by left|].
  right. split; [done|]. exists f, c, t'.
  apply elem_of_zip_files in Hf as [He _]. done.
Qed.

(** ** C4: the sweep *)

(** C4, as amended.  In a scratch directory, whatever the outcome of the
    sweep, an entry whose name does not end in [.zip], and anything outside
    the scratch directory, is left as it was; and when no entry whose name
    ends in [.zip] is a directory, the sweep completes and no entry whose
    name ends in [.zip] is left, whichever run created it. *)
Theorem clean_temp_folder_sweeps_zip_files cfg w t :
  fs w !! build_local_path cfg TEMP_DIR_NAME = Some (Dir t) ->
  (forall r w', clean_temp_folder cfg w = (r, w') ->
     forall q,
       (forall f, endswith f ".zip" = true ->
                  q <> os_path_join (build_local_path cfg TEMP_DIR_NAME) f) ->
       fs w' !! q = fs w !! q)
  /\
  ((forall f t', endswith f ".zip" = true ->
      fs w !! os_path_join (build_local_path cfg TEMP_DIR_NAME) f <> Some (Dir t')) ->
   exists w',
     clean_temp_folder cfg w = (Ok tt, w') /\
     forall f, endswith f ".zip" = true ->
       fs w' !! os_path_join (build_local_path cfg TEMP_DIR_NAME) f = None).
Proof.
  intros Htemp. split.
  - intros r w' Hrun q Hq.
    destruct (clean_temp_folder_frame _ _ _ _ Hrun) as (_ & _ & Hfs).
    destruct (Hfs q) as [E|[_ (f & c & t' & He & -> & _)]]; [done|].
    by destruct (Hq f He).
  - intros Hfiles.
    set (temp := build_local_path cfg TEMP_DIR_NAME) in *.
    set (zip_files := List.filter (fun f => endswith f ".zip")
                        (map fst (children (fs w) temp))).
    destruct (remove_loop_ok temp zip_files) with (w := w) as (w' & Hrun & Hgone).
    { apply NoDup_ListNoDup, List.NoDup_filter, NoDup_ListNoDup,
        children_names_NoDup. }
    { intros f Hf. apply elem_of_zip_files in Hf as [He [n Hn]].
      destruct n as [c t'|t']; [by exists c, t'|].
      by destruct (Hfiles f t' He). }
    exists w'. split.
    + unfold clean_temp_folder, bind, os_listdir. fold temp. rewrite Htemp.
      exact Hrun.
    + intros f He.
      destruct (fs w !! os_path_join temp f) as [n|] eqn:Hl.
      * apply Hgone, elem_of_zip_files. split; [done|by exists n].
      * destruct (remove_loop_frame _ _ _ _ _ Hrun) as (_ & _ & Hfs).
        destruct (Hfs (os_path_join temp f)) as [E|[E _]]; [|done].
        by rewrite E.
Qed.

Lemma clean_temp_folder_sweeps_zip_files_witness :
  exists w',
    clean_temp_folder sample_config sample_world = (Ok tt, w') /\
    fs w' !! ["app"; "temp"; "old.zip"] = None /\
    fs w' !! ["app"; "temp"; "keep.txt"] = fs sample_world !! ["app"; "temp"; "keep.txt"].
Proof.
  destruct (clean_temp_folder_sweeps_zip_files sample_config sample_world 2)
    as [Hframe Hsweep]; [reflexivity|].
  destruct Hsweep as (w' & Hrun & Hgone).
  - intros f t' He Hl. apply dir_child_listed in Hl. listed Hl.
  - exists w'. split; [exact Hrun|]. split.
    + apply (Hgone "old.zip"). reflexivity.
    + apply (Hframe _ _ Hrun). intros f He E.
      apply (os_path_join_inj ["app"; "temp"] "keep.txt" f) in E. subst f.
      discriminate.
Defined.

(** C4 as stated fails: the listing meets the directory [b.zip] first,
    [os.remove] raises on it, and the file [a.zip] is never removed. *)
Lemma clean_temp_folder_stops_at_directory :
  ~ (forall cfg w r w' f c t,
       clean_temp_folder cfg w = (r, w') ->
       endswith f ".zip" = true ->
       fs w !! os_path_join (build_local_path cfg TEMP_DIR_NAME) f = Some (File c t) ->
       fs w' !! os_path_join (build_local_path cfg TEMP_DIR_NAME) f = None)
  /\ (clean_temp_folder sample_config zip_named_directory_world).1
     = Raise (IsADirectoryError ["app"; "temp"; "b.zip"])
  /\ fs (clean_temp_folder sample_config zip_named_directory_world).2
        !! ["app"; "temp"; "a.zip"] = Some (File [x50; x4b] 2).
Proof.
  assert (Hleft : fs (clean_temp_folder sample_config zip_named_directory_world).2
                    !! ["app"; "temp"; "a.zip"] = Some (File [x50; x4b] 2))
    by (vm_compute; reflexivity).
  split; [|split; [vm_compute; reflexivity|exact Hleft]].
  intros Hclaim.
  specialize (Hclaim sample_config zip_named_directory_world _ _
                     "a.zip" [x50; x4b] 2 (surjective_pairing _)
                     eq_refl eq_refl).
  discriminate (eq_trans (eq_sym Hleft) Hclaim).
Qed.

(** ** What a run may change *)

Lemma local_only_refl temp w : local_only temp w w.
Proof. by repeat split. Qed.

Lemma local_only_trans temp w1 w2 w3 :
  local_only temp w1 w2 -> local_only temp w2 w3 -> local_only temp w1 w3.
Proof.
  intros (Hd1 & Ho1 & Ht1 & Hb1 & Hl1) (Hd2 & Ho2 & Ht2 & Hb2 & Hl2).
  repeat split.
  - intros q t Hq. by apply Hd2, Hd1.
  - intros q Hq. by rewrite Ho2, Ho1.
  - by rewrite Ht2.
  - by rewrite Hb2.
  - by rewrite Hl2.
Qed.

Lemma mkdir_parents_spec rest : forall base (t : Z) (m m' : gmap path node),
  mkdir_parents base rest t m = inr m' ->
  forall q,
    m' !! q = m !! q
    \/ (m !! q = None /\ m' !! q = Some (Dir t) /\ q `prefix_of` (base ++ rest)).
Proof.
  induction rest as [|c rest IH]; intros base t m m' Hrun q; simpl in Hrun.
  - injection Hrun as <-. by left.
  - assert (Hpre : forall p, p `prefix_of` (os_path_join base c ++ rest) ->
                             p `prefix_of` (base ++ c :: rest)).
    { intros p. unfold os_path_join. by rewrite <- app_assoc. }
    destruct (m !! os_path_join base c) as [[ct tt'|t']|] eqn:Hq0; [done| |].
    + destruct (IH _ _ _ _ Hrun q) as [E|(E1 & E2 & E3)]; [by left|].
      right. auto.
    + destruct (IH _ _ _ _ Hrun q) as [E|(E1 & E2 & E3)].
      * destruct (decide (q = os_path_join base c)) as [->|Hne].
        -- right. rewrite E, lookup_insert_eq. repeat split; [done|].
           apply Hpre. by exists rest.
        -- left. by rewrite E, lookup_insert_ne.
      * destruct (decide (q = os_path_join base c)) as [->|Hne].
        -- by rewrite lookup_insert_eq in E1.
        -- rewrite lookup_insert_ne in E1 by done. right. auto.
Qed.

Lemma mkdir_parents_local (temp : path) (t : Z) (m m' : gmap path node)
    (w : world) :
  mkdir_parents [] temp t m = inr m' ->
  fs w = m ->
  local_only temp w (set_fs m' w).
Proof.
  intros Hrun <-. repeat split; simpl; try done.
  - intros q t' Hq.
    destruct (mkdir_parents_spec _ _ _ _ _ Hrun q) as [E|(E & _)];
      [by rewrite E|congruence].
  - intros q Hq.
    destruct (mkdir_parents_spec _ _ _ _ _ Hrun q) as [E|(_ & _ & E)]; [done|].
    destruct Hq. by left.
Qed.

Lemma setup_local cfg w r w' :
  setup cfg w = (r, w') ->
  local_only (build_local_path cfg TEMP_DIR_NAME) w w'.
Proof.
  unfold setup, setup_temp_folder, create_directory, bind, os_path_exists.
  case_bool_decide as Hex; simpl.
  - intros [= <- <-]. apply local_only_refl.
  - unfold os_makedirs.
    destruct (fs w !! _) as [n|] eqn:Hl; [intros [= <- <-]; apply local_only_refl|].
    destruct (mkdir_parents _ _ _ _) as [e|m] eqn:Hmk; intros [= <- <-].
    + apply local_only_refl.
    + by apply (mkdir_parents_local _ _ _ _ _ Hmk).
Qed.

Lemma find_backup_folder_reads cfg w r w' :
  find_backup_folder cfg w = (r, w') -> w' = w.
Proof.
  unfold find_backup_folder, bind. intros H.
  destruct (os_scandir _ w) as [rs ws] eqn:Hscan.
  destruct (scandir_inv _ _ _ _ Hscan) as [-> _].
  destruct rs as [entries|e]; [|by injection H as <- <-].
  destruct (length _ =? 0)%nat.
  - by injection H as <- <-.
  - unfold find_latest_modified_directory in H.
    pose proof (find_latest_loop_reads
                  (map entry_path (List.filter is_dir entries)) None None w) as Hr.
    rewrite H in Hr. done.
Qed.

Lemma path_add_suffix_join d name suffix :
  path_add_suffix (os_path_join d name) suffix = os_path_join d (name +:+ suffix).
Proof.
  unfold os_path_join. induction d as [|c d IH]; simpl; [done|].
  rewrite IH. by destruct d.
Qed.

Lemma dirname_join d name : os_path_dirname (os_path_join d name) = d.
Proof. apply removelast_last. Qed.

Section ScriptFacts.

Variable zip_encode : list (path * node) -> data.
Variable s3_fault : string -> string -> data -> option exn.

(** The archiver either raises, having at most created directories on the
    way to the archive, or writes the archive file, and nothing else. *)
Lemma make_archive_inv base root w r w' :
  shutil_make_archive zip_encode base root w = (r, w') ->
  exists m,
    (m = fs w \/ mkdir_parents [] (os_path_dirname base) (clock w) (fs w) = inr m
     \/ (w' = w /\ exists e, r = Raise e)) /\
    ((exists e, r = Raise e /\ (w' = w \/ w' = set_fs m w))
     \/ (r = Ok (path_add_suffix base ".zip") /\
         (forall t, m !! path_add_suffix base ".zip" <> Some (Dir t)) /\
         w' = set_fs (<[path_add_suffix base ".zip" :=
                          File (zip_encode (subtree m (default (cwd w) root)))
                               (clock w)]> m) w)).
Proof.
  unfold shutil_make_archive. intros H.
  destruct (fs w !! default (cwd w) root) as [[c t|t]|];
    try (injection H as <- <-; exists (fs w); split; [by left|]; left; eauto).
  destruct (if bool_decide (is_Some (fs w !! os_path_dirname base))
            then inr (fs w)
            else mkdir_parents [] (os_path_dirname base) (clock w) (fs w))
    as [e|m] eqn:Hm.
  { injection H as <- <-. exists (fs w). split; [by left|]. left. eauto. }
  exists m. split.
  { case_bool_decide; [left; congruence|right; left; done]. }
  destruct (m !! os_path_dirname base) as [[c1 t1|t1]|] eqn:Hd;
    destruct (m !! path_add_suffix base ".zip") as [[c2 t2|t2]|] eqn:Hz;
    injection H as <- <-; try (left; eauto; fail);
    right; (split; [done|]); (split; [|done]); congruence.
Qed.

Lemma make_archive_local temp name root w r w' :
  shutil_make_archive zip_encode (os_path_join temp name) root w = (r, w') ->
  local_only temp w w'.
Proof.
  intros H. apply make_archive_inv in H as (m & Hm & Hres).
  rewrite dirname_join in Hm. rewrite path_add_suffix_join in Hres.
  assert (Hstep : w' = w \/ local_only temp w (set_fs m w)).
  { destruct Hm as [->|[Hmk|[-> _]]]; [right|right|by left].
    - destruct w; apply local_only_refl.
    - by apply (mkdir_parents_local _ _ _ _ _ Hmk). }
  destruct Hstep as [->|Hloc]; [apply local_only_refl|].
  destruct Hres as [(e & -> & [->| ->])|(-> & Hnodir & ->)];
    [apply local_only_refl|done|].
  eapply local_only_trans; [exact Hloc|].
  repeat split; simpl; try done.
  - intros q t Hq. rewrite lookup_insert_ne; [done|].
    intros <-. by apply (Hnodir t).
  - intros q Hq. rewrite lookup_insert_ne; [done|].
    intros <-. apply Hq. right. by eexists.
Qed.

Lemma upload_inv Filename Bucket Key w r w' :
  S3_upload_file s3_fault Filename Bucket Key w = (r, w') ->
  (exists e, r = Raise e /\ w' = w)
  \/ (exists body t,
        r = Ok tt /\ fs w !! Filename = Some (File body t) /\
        s3_fault Bucket Key body = None /\
        w' = World (fs w) (<[(Bucket, Key) := body]> (bucket_objects w))
                   (trash w) (localtime w) (clock w) (cwd w)).
Proof.
  unfold S3_upload_file. intros H.
  destruct (fs w !! Filename) as [[body t|t]|];
    try (injection H as <- <-; left; eauto; fail).
  destruct (s3_fault Bucket Key body) eqn:Hf; injection H as <- <-.
  - left. eauto.
  - right. exists body, t. done.
Qed.

Lemma clean_temp_folder_local cfg w r w' :
  clean_temp_folder cfg w = (r, w') ->
  local_only (build_local_path cfg TEMP_DIR_NAME) w w' /\
  clock w' = clock w /\ cwd w' = cwd w.
Proof.
  intros H.
  assert (Hrest : clock w' = clock w /\ cwd w' = cwd w /\ localtime w' = localtime w).
  { revert H. unfold clean_temp_folder, bind, os_listdir.
    destruct (fs w !! _) as [[c t|t]|]; try (intros [= <- <-]; done).
    generalize (List.filter (fun f => endswith f ".zip")
                  (map fst (children (fs w) (build_local_path cfg TEMP_DIR_NAME)))).
    intros names. revert w. clear.
    induction names as [|f names IH]; intros w H; simpl in H.
    - by injection H as <- <-.
    - unfold bind in H. destruct (os_remove _ w) as [r1 w1] eqn:Hrm.
      apply remove_inv in Hrm as [(-> & -> & _)|(-> & e & ->)].
      + by apply IH in H.
      + by injection H as <- <-. }
  destruct Hrest as (Hc & Hw & Hl).
  apply clean_temp_folder_frame in H as (Hb & Ht & Hfs).
  repeat split; try done.
  - intros q t Hq. destruct (Hfs q) as [E|[_ (f & c & t' & _ & _ & E)]];
      congruence.
  - intros q Hq. destruct (Hfs q) as [E|[_ (f & c & t' & _ & -> & _)]]; [done|].
    destruct Hq. right. by eexists.
Qed.

Lemma local_only_fs temp w w' : local_only temp w w' -> local_fs temp w w'.
Proof. intros (Hd & Ho & Ht & _). by repeat split. Qed.

Lemma local_fs_trans temp w1 w2 w3 :
  local_fs temp w1 w2 -> local_fs temp w2 w3 -> local_fs temp w1 w3.
Proof.
  intros (Hd1 & Ho1 & Ht1) (Hd2 & Ho2 & Ht2). repeat split.
  - intros q t Hq. by apply Hd2, Hd1.
  - intros q Hq. by rewrite Ho2, Ho1.
  - by rewrite Ht2.
Qed.

Lemma create_backup_name_eq w :
  create_backup_name w
  = (Ok (BACKUP_PREFIX +:+ "_" +:+ strftime_Ymd_HMS (localtime w)), w).
Proof. reflexivity. Qed.

(** A run either stops with an exception before the clean-up, having
    changed nothing but the scratch directory, or reaches the clean-up
    after an upload that returned. *)
Lemma main_inv cfg w r w' :
  main zip_encode s3_fault cfg w = (r, w') ->
  (exists e, r = Raise e /\
     local_only (build_local_path cfg TEMP_DIR_NAME) w w')
  \/ (exists src w1 w2 w3,
        setup cfg w = (Ok tt, w1) /\
        find_backup_folder cfg w1 = (Ok src, w1) /\
        shutil_make_archive zip_encode
          (os_path_join (build_local_path cfg TEMP_DIR_NAME)
             (BACKUP_PREFIX +:+ "_" +:+ strftime_Ymd_HMS (localtime w)))
          src w1
        = (Ok (os_path_join (build_local_path cfg TEMP_DIR_NAME)
                 (BACKUP_PREFIX +:+ "_" +:+ strftime_Ymd_HMS (localtime w)
                    +:+ ".zip")), w2) /\
        upload_zipped_folder s3_fault cfg
          (BACKUP_PREFIX +:+ "_" +:+ strftime_Ymd_HMS (localtime w))
          (os_path_join (build_local_path cfg TEMP_DIR_NAME)
             (BACKUP_PREFIX +:+ "_" +:+ strftime_Ymd_HMS (localtime w)
                +:+ ".zip")) w2
        = (Ok tt, w3) /\
        cleanup cfg src w3 = (r, w')).
Proof.
  unfold main. unfold bind at 1. intros H.
  destruct (setup cfg w) as [r1 w1] eqn:Hsetup.
  pose proof (setup_local _ _ _ _ Hsetup) as Hloc1.
  destruct r1 as [[]|e]; [|injection H as <- <-; left; eauto].
  unfold bind at 1 in H.
  destruct (find_backup_folder cfg w1) as [r2 w1'] eqn:Hfind.
  pose proof (find_backup_folder_reads _ _ _ _ Hfind) as ->.
  destruct r2 as [src|e]; [|injection H as <- <-; left; eauto].
  unfold bind at 1 in H. rewrite create_backup_name_eq in H.
  assert (Hlt : localtime w1 = localtime w) by apply Hloc1.
  rewrite Hlt in H.
  unfold bind at 1 in H.
  destruct (shutil_make_archive _ _ _ w1) as [r4 w2] eqn:Harch.
  pose proof (make_archive_local _ _ _ _ _ _ Harch) as Hloc2.
  pose proof (local_only_trans _ _ _ _ Hloc1 Hloc2) as Hloc12.
  destruct r4 as [zip|e]; [|injection H as <- <-; left; eauto].
  assert (zip = path_add_suffix
                  (os_path_join (build_local_path cfg TEMP_DIR_NAME)
                     (BACKUP_PREFIX +:+ "_" +:+ strftime_Ymd_HMS (localtime w)))
                  ".zip") as ->.
  { apply make_archive_inv in Harch as (m & _ & [(e & He & _)|(Hz & _)]);
      congruence. }
  unfold bind at 1 in H.
  destruct (upload_zipped_folder _ _ _ _ w2) as [r5 w3] eqn:Hup.
  rewrite path_add_suffix_join in *.
  destruct r5 as [[]|e].
  - right. exists src, w1, w2, w3. done.
  - injection H as <- <-. left. exists e. split; [done|].
    apply upload_inv in Hup as [(e' & _ & ->)|(body & t & Hr & _)];
      [done|discriminate].
Qed.

Lemma find_backup_folder_selects cfg w src w' :
  find_backup_folder cfg w = (Ok src, w') ->
  exists name t,
    src = Some (os_path_join (machine_backup_folder_path cfg) name) /\
    fs w !! os_path_join (machine_backup_folder_path cfg) name = Some (Dir t).
Proof.
  intros H. pose proof (find_backup_folder_reads _ _ _ _ H) as ->.
  unfold find_backup_folder, bind in H.
  destruct (os_scandir (machine_backup_folder_path cfg) w) as [r w1] eqn:Hscan.
  destruct (scandir_inv _ _ _ _ Hscan) as [-> Hent].
  destruct r as [entries|e]; [|discriminate].
  destruct (Hent entries eq_refl) as (t & Hparent & ->).
  destruct (length _ =? 0)%nat eqn:Hlen; [discriminate|].
  match type of H with find_latest_modified_directory ?L _ = _ =>
    destruct (find_latest_modified_directory_spec L w)
      as (r & l1 & l2 & tr & Hrun & Hsplit & _);
    [intros E; rewrite E in Hlen; discriminate
    |intros p Hp; by apply scanned_directories_exist in Hp
    |assert (Hr : r ∈ L) by (rewrite Hsplit; apply elem_of_app; right; left)]
  end.
  rewrite Hrun in H. injection H as <-.
  apply elem_of_scanned_directories in Hr as (name & t' & -> & Hl).
  by exists name, t'.
Qed.

Lemma setup_creates_above_scratch cfg w r w' :
  setup cfg w = (r, w') ->
  forall q,
    fs w' !! q = fs w !! q
    \/ (fs w !! q = None /\ q `prefix_of` build_local_path cfg TEMP_DIR_NAME).
Proof.
  unfold setup, setup_temp_folder, create_directory, bind, os_path_exists.
  case_bool_decide as Hex; simpl.
  - intros [= <- <-] q. by left.
  - unfold os_makedirs.
    destruct (fs w !! _) as [n|] eqn:Hl; [intros [= <- <-] q; by left|].
    destruct (mkdir_parents _ _ _ _) as [e|m] eqn:Hmk; intros [= <- <-] q.
    + by left.
    + destruct (mkdir_parents_spec _ _ _ _ _ Hmk q) as [E|(E1 & _ & E3)];
        [by left|right; done].
Qed.

Lemma cleanup_without_flag cfg src w r w' :
  TRASH_BACKUP_FOLDER cfg = false ->
  cleanup cfg src w = (r, w') ->
  local_only (build_local_path cfg TEMP_DIR_NAME) w w'.
Proof.
  intros Hflag. unfold cleanup, bind. rewrite Hflag.
  destruct (clean_temp_folder cfg w) as [r1 w1] eqn:Hclean.
  apply clean_temp_folder_local in Hclean as [Hloc _].
  destruct r1; intros [= <- <-]; done.
Qed.

Lemma upload_local_fs temp cfg name zip w r w' :
  upload_zipped_folder s3_fault cfg name zip w = (r, w') ->
  local_fs temp w w' /\ localtime w' = localtime w.
Proof.
  unfold upload_zipped_folder. intros H.
  apply upload_inv in H as [(e & _ & ->)|(body & t & _ & _ & _ & ->)];
    by repeat split.
Qed.

(** Without the trash flag a whole run stays within the scratch directory. *)
Lemma main_local_fs cfg w r w' :
  TRASH_BACKUP_FOLDER cfg = false ->
  main zip_encode s3_fault cfg w = (r, w') ->
  local_fs (build_local_path cfg TEMP_DIR_NAME) w w'.
Proof.
  intros Hflag H.
  apply main_inv in H as [(e & _ & Hloc)|(src & w1 & w2 & w3 & H1 & _ & H3 & H4 & H5)].
  - by apply local_only_fs.
  - apply setup_local, local_only_fs in H1.
    apply make_archive_local, local_only_fs in H3.
    apply (upload_local_fs (build_local_path cfg TEMP_DIR_NAME)) in H4 as [H4 _].
    apply (cleanup_without_flag _ _ _ _ _ Hflag), local_only_fs in H5.
    eauto using local_fs_trans.
Qed.

(** A path below [src] is not [touched] unless [src] lies on the way to
    the scratch directory. *)
Lemma below_source_not_touched temp src c rest :
  is_under src temp = false -> ~ touched temp (src ++ c :: rest).
Proof.
  intros Hnot [[k Hk]|[f Hf]].
  - assert (is_under src temp = true); [|congruence].
    apply is_under_true. exists ((c :: rest) ++ k). by rewrite app_assoc.
  - assert (is_under src temp = true); [|congruence].
    apply is_under_true. unfold os_path_join in Hf.
    destruct (exists_last (l := c :: rest)) as (rest' & f' & E); [done|].
    rewrite E, app_assoc in Hf. apply app_inj_tail in Hf as [Hf _].
    by exists rest'.
Qed.

Lemma cleanup_keeps_bucket cfg src w r w' :
  cleanup cfg src w = (r, w') -> bucket_objects w' = bucket_objects w.
Proof.
  unfold cleanup, bind. intros H.
  destruct (clean_temp_folder cfg w) as [r6 w4] eqn:Hsweep.
  destruct (clean_temp_folder_frame _ _ _ _ Hsweep) as (Hb & _).
  destruct r6 as [[]|e]; [|by injection H as <- <-].
  destruct (TRASH_BACKUP_FOLDER cfg); [|by injection H as <- <-].
  unfold trash_backup_folder, send2trash in H.
  destruct src as [p|]; [|by injection H as <- <-].
  destruct (fs w4 !! p); by injection H as <- <-.
Qed.

(** ** C5, C6, C7: the run *)

(** C5.  When the upload raises, the run ends with that exception at the
    state the archiver left: the clean-up has not run, the archive of this
    run is still in the scratch directory, nothing was trashed and the
    source directory is still in place.  And a run that ends with anything
    trashed has gone through an upload that returned, and then the
    clean-up. *)
Theorem upload_failure_skips_cleanup cfg w :
  (forall w1 src name w2 zip e w3,
     setup cfg w = (Ok tt, w1) ->
     find_backup_folder cfg w1 = (Ok src, w1) ->
     create_backup_name w1 = (Ok name, w1) ->
     shutil_make_archive zip_encode
       (os_path_join (build_local_path cfg TEMP_DIR_NAME) name) src w1
     = (Ok zip, w2) ->
     upload_zipped_folder s3_fault cfg name
       (path_add_suffix (os_path_join (build_local_path cfg TEMP_DIR_NAME) name) ".zip")
       w2
     = (Raise e, w3) ->
     main zip_encode s3_fault cfg w = (Raise e, w2) /\
     w3 = w2 /\
     (exists body t,
        fs w2 !! os_path_join (build_local_path cfg TEMP_DIR_NAME) (name +:+ ".zip")
        = Some (File body t)) /\
     trash w2 = trash w /\
     (exists p t, src = Some p /\ fs w2 !! p = Some (Dir t)))
  /\
  (forall r w',
     main zip_encode s3_fault cfg w = (r, w') ->
     trash w' <> trash w ->
     exists src name zip w2 w3,
       upload_zipped_folder s3_fault cfg name zip w2 = (Ok tt, w3) /\
       cleanup cfg src w3 = (r, w')).
Proof.
  split.
  - intros w1 src name w2 zip e w3 Hsetup Hfind Hname Harch Hup.
    assert (w3 = w2) as ->.
    { unfold upload_zipped_folder in Hup.
      apply upload_inv in Hup as [(e' & _ & ->)|(body & t & Hr & _)];
        [done|discriminate]. }
    split; [|split; [done|]].
    { unfold main, bind. rewrite Hsetup, Hfind, Hname, Harch, Hup. done. }
    pose proof (setup_local _ _ _ _ Hsetup) as (_ & _ & Ht1 & _).
    pose proof (make_archive_local _ _ _ _ _ _ Harch) as (Hd2 & _ & Ht2 & _).
    split; [|split; [congruence|]].
    + apply make_archive_inv in Harch as (m & _ & [(e' & He & _)|(_ & _ & ->)]);
        [discriminate|].
      rewrite path_add_suffix_join. simpl. rewrite lookup_insert_eq. eauto.
    + apply find_backup_folder_selects in Hfind as (n & t & -> & Hl).
      exists (os_path_join (machine_backup_folder_path cfg) n), t.
      split; [done|]. by apply Hd2.
  - intros r w' Hrun Htrash.
    apply main_inv in Hrun as [(e & _ & Hloc)|(src & w1 & w2 & w3 & _ & _ & _ & H4 & H5)].
    + destruct Htrash. apply Hloc.
    + eauto 10.
Qed.

(** C6, as amended.  In a run without the trash flag nothing is trashed;
    and when the scratch directory is neither the selected source
    directory nor inside it, the source directory was there before the run
    and, however the run ends, it and every entry below it are after the
    run as they were before. *)
Theorem source_untouched_without_trash_flag cfg w r w' :
  TRASH_BACKUP_FOLDER cfg = false ->
  main zip_encode s3_fault cfg w = (r, w') ->
  trash w' = trash w /\
  (forall w1 src,
     setup cfg w = (Ok tt, w1) ->
     find_backup_folder cfg w1 = (Ok (Some src), w1) ->
     is_under src (build_local_path cfg TEMP_DIR_NAME) = false ->
     (exists t, fs w !! src = Some (Dir t)) /\
     (forall q, is_under src q = true -> fs w' !! q = fs w !! q)).
Proof.
  intros Hflag Hrun.
  destruct (main_local_fs _ _ _ _ Hflag Hrun) as (Hdirs & Hout & Htrash).
  split; [done|]. intros w1 src Hsetup Hfind Hnot.
  apply find_backup_folder_selects in Hfind as (n & t & [= ->] & Hl).
  assert (Hsrc : fs w !! os_path_join (machine_backup_folder_path cfg) n
                 = Some (Dir t)).
  { destruct (setup_creates_above_scratch _ _ _ _ Hsetup
                (os_path_join (machine_backup_folder_path cfg) n))
      as [E|[_ [k Hk]]]; [congruence|].
    assert (is_under (os_path_join (machine_backup_folder_path cfg) n)
                     (build_local_path cfg TEMP_DIR_NAME) = true);
      [|congruence].
    apply is_under_true. by exists k. }
  split; [by exists t|].
  intros q Hq. apply is_under_true in Hq as [[|c rest] ->].
  - rewrite app_nil_r. rewrite Hsrc. by apply Hdirs.
  - apply Hout. by apply below_source_not_touched.
Qed.

(** C7.  One name, [backup_<timestamp>], is made once in a run, by
    [create_backup_name] right after the locator, and every run goes one
    of three ways.  It ends before an upload is attempted, because
    [setup], the locator or the archiver raised, and the bucket is as it
    was.  Or the archiver, called on the state the locator saw, has
    written [<scratch>/<name>.zip], the upload of that very file under
    that name raised, and the run ends there with the bucket as it was and
    the archive in place.  Or the archiver has written
    [<scratch>/<name>.zip], the upload of that very file under that name
    returned, the clean-up followed, and the bucket is as it was but for
    the key [<machine name>/<name>.zip], which holds the bytes of that
    file. *)
Theorem remote_key_is_machine_and_backup_name cfg w r w' :
  main zip_encode s3_fault cfg w = (r, w') ->
  (exists e,
     r = Raise e /\ bucket_objects w' = bucket_objects w /\
     (setup cfg w = (Raise e, w')
      \/ (exists w1,
            setup cfg w = (Ok tt, w1) /\
            find_backup_folder cfg w1 = (Raise e, w'))
      \/ (exists w1 src,
            setup cfg w = (Ok tt, w1) /\
            find_backup_folder cfg w1 = (Ok src, w1) /\
            create_backup_name w1
            = (Ok (BACKUP_PREFIX +:+ "_" +:+ strftime_Ymd_HMS (localtime w)), w1) /\
            shutil_make_archive zip_encode
              (os_path_join (build_local_path cfg TEMP_DIR_NAME)
                 (BACKUP_PREFIX +:+ "_" +:+ strftime_Ymd_HMS (localtime w)))
              src w1
            = (Raise e, w'))))
  \/ (exists e w1 src body t,
        r = Raise e /\ bucket_objects w' = bucket_objects w /\
        setup cfg w = (Ok tt, w1) /\
        find_backup_folder cfg w1 = (Ok src, w1) /\
        create_backup_name w1
        = (Ok (BACKUP_PREFIX +:+ "_" +:+ strftime_Ymd_HMS (localtime w)), w1) /\
        shutil_make_archive zip_encode
          (os_path_join (build_local_path cfg TEMP_DIR_NAME)
             (BACKUP_PREFIX +:+ "_" +:+ strftime_Ymd_HMS (localtime w)))
          src w1
        = (Ok (os_path_join (build_local_path cfg TEMP_DIR_NAME)
                 (BACKUP_PREFIX +:+ "_" +:+ strftime_Ymd_HMS (localtime w)
                    +:+ ".zip")), w') /\
        fs w' !! os_path_join (build_local_path cfg TEMP_DIR_NAME)
                   (BACKUP_PREFIX +:+ "_" +:+ strftime_Ymd_HMS (localtime w)
                      +:+ ".zip")
        = Some (File body t) /\
        upload_zipped_folder s3_fault cfg
          (BACKUP_PREFIX +:+ "_" +:+ strftime_Ymd_HMS (localtime w))
          (os_path_join (build_local_path cfg TEMP_DIR_NAME)
             (BACKUP_PREFIX +:+ "_" +:+ strftime_Ymd_HMS (localtime w)
                +:+ ".zip")) w'
        = (Raise e, w'))
  \/ (exists w1 src w2 w3 body t,
        setup cfg w = (Ok tt, w1) /\
        find_backup_folder cfg w1 = (Ok src, w1) /\
        create_backup_name w1
        = (Ok (BACKUP_PREFIX +:+ "_" +:+ strftime_Ymd_HMS (localtime w)), w1) /\
        shutil_make_archive zip_encode
          (os_path_join (build_local_path cfg TEMP_DIR_NAME)
             (BACKUP_PREFIX +:+ "_" +:+ strftime_Ymd_HMS (localtime w)))
          src w1
        = (Ok (os_path_join (build_local_path cfg TEMP_DIR_NAME)
                 (BACKUP_PREFIX +:+ "_" +:+ strftime_Ymd_HMS (localtime w)
                    +:+ ".zip")), w2) /\
        fs w2 !! os_path_join (build_local_path cfg TEMP_DIR_NAME)
                   (BACKUP_PREFIX +:+ "_" +:+ strftime_Ymd_HMS (localtime w)
                      +:+ ".zip")
        = Some (File body t) /\
        upload_zipped_folder s3_fault cfg
          (BACKUP_PREFIX +:+ "_" +:+ strftime_Ymd_HMS (localtime w))
          (os_path_join (build_local_path cfg TEMP_DIR_NAME)
             (BACKUP_PREFIX +:+ "_" +:+ strftime_Ymd_HMS (localtime w)
                +:+ ".zip")) w2
        = (Ok tt, w3) /\
        cleanup cfg src w3 = (r, w') /\
        bucket_objects w'
        = <[(wasabi_archive_bucket_name cfg,
             machine_name cfg +:+ "/" +:+ BACKUP_PREFIX +:+ "_"
               +:+ strftime_Ymd_HMS (localtime w) +:+ ".zip") := body]>
            (bucket_objects w)).
Proof.
  unfold main. unfold bind at 1. intros H.
  destruct (setup cfg w) as [r1 w1] eqn:Hsetup.
  pose proof (setup_local _ _ _ _ Hsetup) as (_ & _ & _ & Hb1 & Hlt).
  destruct r1 as [[]|e].
  2: { injection H as <- <-. left. exists e. eauto. }
  unfold bind at 1 in H.
  destruct (find_backup_folder cfg w1) as [r2 w1'] eqn:Hfind.
  pose proof (find_backup_folder_reads _ _ _ _ Hfind) as ->.
  destruct r2 as [src|e].
  2: { injection H as <- <-. left. exists e.
       split; [done|]. split; [done|]. right. left. eauto. }
  unfold bind at 1 in H. rewrite create_backup_name_eq in H.
  assert (Hname : create_backup_name w1
                  = (Ok (BACKUP_PREFIX +:+ "_" +:+ strftime_Ymd_HMS (localtime w)),
                     w1))
    by (rewrite create_backup_name_eq; by rewrite Hlt).
  rewrite Hlt in H. unfold bind at 1 in H.
  destruct (shutil_make_archive _ _ _ w1) as [r4 w2] eqn:Harch.
  pose proof (make_archive_local _ _ _ _ _ _ Harch) as (_ & _ & _ & Hb2 & _).
  destruct r4 as [zip|e].
  2: { injection H as <- <-. left. exists e.
       split; [done|]. split; [congruence|]. right. right. eauto 10. }
  assert (Hzip : zip = os_path_join (build_local_path cfg TEMP_DIR_NAME)
                         (BACKUP_PREFIX +:+ "_" +:+ strftime_Ymd_HMS (localtime w)
                            +:+ ".zip") /\
                 exists body t, fs w2 !! zip = Some (File body t)).
  { pose proof Harch as Hinv.
    apply make_archive_inv in Hinv as (m & _ & [(e & He & _)|(Hz & _ & ->)]);
      [discriminate|].
    injection Hz as ->. rewrite path_add_suffix_join. split; [done|].
    simpl. rewrite lookup_insert_eq. eauto. }
  destruct Hzip as (-> & body & t & Hfile).
  rewrite path_add_suffix_join in H.
  unfold bind at 1 in H.
  destruct (upload_zipped_folder _ _ _ _ w2) as [r5 w3] eqn:Hup.
  pose proof Hup as Hupinv. unfold upload_zipped_folder in Hupinv.
  apply upload_inv in Hupinv
    as [(e & -> & ->)|(body' & t' & -> & Hfile' & _ & ->)].
  - injection H as <- <-. right. left. exists e, w1, src, body, t.
    repeat (split; [first [done|congruence]|]). done.
  - right. right.
    assert (Hsame : Some (File body t) = Some (File body' t'))
      by exact (eq_trans (eq_sym Hfile) Hfile').
    injection Hsame as <- <-.
    eexists w1, src, w2, _, body, t.
    repeat (split; [first [done|exact Hup]|]).
    rewrite (cleanup_keeps_bucket _ _ _ _ _ H). simpl. by rewrite Hb2, Hb1.
Qed.

End ScriptFacts.

Lemma upload_failure_skips_cleanup_witness :
  main sample_zip_encode network_down sample_config sample_world
  = (Raise (S3UploadFailedError "connection reset"),
     (shutil_make_archive sample_zip_encode
        ["app"; "temp"; "backup_20120515-155045"]
        (Some ["data"; "run_b"]) sample_world).2)
  /\ (exists body t,
        fs (shutil_make_archive sample_zip_encode
              ["app"; "temp"; "backup_20120515-155045"]
              (Some ["data"; "run_b"]) sample_world).2
          !! ["app"; "temp"; "backup_20120515-155045.zip"]
        = Some (File body t)).
Proof.
  destruct (upload_failure_skips_cleanup sample_zip_encode network_down
              sample_config sample_world) as [Hfail _].
  destruct (Hfail sample_world (Some ["data"; "run_b"]) "backup_20120515-155045"
              (shutil_make_archive sample_zip_encode
                 ["app"; "temp"; "backup_20120515-155045"]
                 (Some ["data"; "run_b"]) sample_world).2
              ["app"; "temp"; "backup_20120515-155045.zip"]
              (S3UploadFailedError "connection reset")
              (shutil_make_archive sample_zip_encode
                 ["app"; "temp"; "backup_20120515-155045"]
                 (Some ["data"; "run_b"]) sample_world).2)
    as (Hmain & _ & Hzip & _).
  - vm_compute. reflexivity.
  - vm_compute. reflexivity.
  - vm_compute. reflexivity.
  - vm_compute. reflexivity.
  - vm_compute. reflexivity.
  - split; [exact Hmain|exact Hzip].
Defined.

Lemma source_untouched_without_trash_flag_witness :
  trash (main sample_zip_encode network_up sample_config sample_world).2 = [] /\
  forall q, is_under ["data"; "run_b"] q = true ->
    fs (main sample_zip_encode network_up sample_config sample_world).2 !! q
    = fs sample_world !! q.
Proof.
  destruct (source_untouched_without_trash_flag sample_zip_encode network_up
              sample_config sample_world
              (main sample_zip_encode network_up sample_config sample_world).1
              (main sample_zip_encode network_up sample_config sample_world).2)
    as (Htrash & Hsource).
  - reflexivity.
  - apply surjective_pairing.
  - split; [exact Htrash|].
    destruct (Hsource sample_world ["data"; "run_b"]) as (_ & Hsame).
    + vm_compute. reflexivity.
    + vm_compute. reflexivity.
    + vm_compute. reflexivity.
    + exact Hsame.
Defined.

(** C6 as stated fails: with the scratch directory selected as the source,
    a run without the trash flag removes the stray archive from it. *)
Lemma source_changed_when_scratch_is_source :
  ~ (forall cfg w w1 src r w',
       TRASH_BACKUP_FOLDER cfg = false ->
       setup cfg w = (Ok tt, w1) ->
       find_backup_folder cfg w1 = (Ok (Some src), w1) ->
       main sample_zip_encode network_up cfg w = (r, w') ->
       forall q, is_under src q = true -> fs w' !! q = fs w !! q)
  /\ TRASH_BACKUP_FOLDER self_backup_config = false
  /\ (find_backup_folder self_backup_config self_backup_world).1
     = Ok (Some ["app"; "temp"])
  /\ (main sample_zip_encode network_up self_backup_config self_backup_world).1
     = Ok tt
  /\ fs self_backup_world !! ["app"; "temp"; "old.zip"]
     = Some (File [x50; x4b] 2)
  /\ fs (main sample_zip_encode network_up self_backup_config self_backup_world).2
       !! ["app"; "temp"; "old.zip"] = None.
Proof.
  assert (Hgone : fs (main sample_zip_encode network_up
                        self_backup_config self_backup_world).2
                    !! ["app"; "temp"; "old.zip"] = None)
    by (vm_compute; reflexivity).
  split; [|repeat split; vm_compute; reflexivity].
  intros Hclaim.
  assert (Hsame :
    fs (main sample_zip_encode network_up self_backup_config self_backup_world).2
      !! ["app"; "temp"; "old.zip"]
    = fs self_backup_world !! ["app"; "temp"; "old.zip"]).
  { apply (Hclaim self_backup_config self_backup_world self_backup_world
                  ["app"; "temp"]
                  (main sample_zip_encode network_up
                        self_backup_config self_backup_world).1).
    - reflexivity.
    - vm_compute. reflexivity.
    - vm_compute. reflexivity.
    - apply surjective_pairing.
    - reflexivity. }
  rewrite Hgone in Hsame. discriminate Hsame.
Qed.

Lemma remote_key_is_machine_and_backup_name_witness :
  exists w1 src w2 w3 body t,
    setup sample_config recent_world = (Ok tt, w1) /\
    find_backup_folder sample_config w1 = (Ok src, w1) /\
    create_backup_name w1 = (Ok "backup_20120515-155045", w1) /\
    shutil_make_archive sample_zip_encode
      ["app"; "temp"; "backup_20120515-155045"] src w1
    = (Ok ["app"; "temp"; "backup_20120515-155045.zip"], w2) /\
    fs w2 !! ["app"; "temp"; "backup_20120515-155045.zip"] = Some (File body t) /\
    upload_zipped_folder network_up sample_config "backup_20120515-155045"
      ["app"; "temp"; "backup_20120515-155045.zip"] w2
    = (Ok tt, w3) /\
    cleanup sample_config src w3
    = main sample_zip_encode network_up sample_config recent_world /\
    bucket_objects (main sample_zip_encode network_up sample_config recent_world).2
    = <[("archive", "box/backup_20120515-155045.zip") := body]> ∅.
Proof.
  destruct (remote_key_is_machine_and_backup_name sample_zip_encode network_up
              sample_config recent_world
              (main sample_zip_encode network_up sample_config recent_world).1
              (main sample_zip_encode network_up sample_config recent_world).2)
    as [(e & He & _)|[(e & w1 & src & body & t & He & _)
                     |(w1 & src & w2 & w3 & body & t
                       & H1 & H2 & H3 & H4 & H5 & H6 & H7 & H8)]].
  - apply surjective_pairing.
  - vm_compute in He. discriminate He.
  - vm_compute in He. discriminate He.
  - exists w1, src, w2, w3, body, t.
    repeat (split; [first [exact H1|exact H2|exact H3|exact H4|exact H5|exact H6]|]).
    split; [|exact H8]. rewrite H7. symmetry. apply surjective_pairing.
Defined.

(** The sample run end to end: [run_b] is selected, its archive goes to
    the bucket, and the scratch directory loses both the archive of the
    run and the stray [old.zip]; nothing else changes. *)
Example sample_run_end_state :
  (find_backup_folder sample_config sample_world).1 = Ok (Some ["data"; "run_b"]) /\
  (main sample_zip_encode network_up sample_config sample_world).1 = Ok tt /\
  fs (main sample_zip_encode network_up sample_config sample_world).2
  = delete ["app"; "temp"; "old.zip"] (fs sample_world).
Proof. repeat split; vm_compute; reflexivity. Qed.

(** With the trash flag the same run ends with [run_b] and what it holds
    moved from the filesystem to the trash. *)
Example sample_run_with_trash_flag :
  (main sample_zip_encode network_up trashing_config sample_world).1 = Ok tt /\
  fs (main sample_zip_encode network_up trashing_config sample_world).2
  = delete ["data"; "run_b"; "f.txt"]
      (delete ["data"; "run_b"]
         (delete ["app"; "temp"; "old.zip"] (fs sample_world))) /\
  map (fun e => (e.1, map_to_list e.2))
      (trash (main sample_zip_encode network_up trashing_config sample_world).2)
  = [ (["data"; "run_b"],
       [ (["data"; "run_b"; "f.txt"], File [x68; x69] 3);
         (["data"; "run_b"], Dir 9) ]) ].
Proof. repeat split; vm_compute; reflexivity. Qed.

(** The object the sample run leaves in the bucket. *)
Example sample_run_bucket :
  map_to_list
    (bucket_objects (main sample_zip_encode network_up sample_config sample_world).2)
  = [ (("archive", "box/backup_20120515-155045.zip"), [x68; x69]) ].
Proof. vm_compute. reflexivity. Qed.

(** ** More on the locator *)

Lemma find_latest_loop_first_missing l1 p l2 w : forall a t,
  (forall q, q ∈ l1 -> is_Some (fs w !! q)) ->
  fs w !! p = None ->
  find_latest_loop (l1 ++ p :: l2) a t w = (Raise (FileNotFoundError p), w).
Proof.
  induction l1 as [|q l1 IH]; intros a t Hex Hp; simpl; unfold bind.
  - by rewrite (getmtime_None _ _ Hp).
  - destruct (Hex q) as [n Hn]; [left|].
    rewrite (getmtime_Some _ _ _ Hn).
    assert (Hex' : forall q', q' ∈ l1 -> is_Some (fs w !! q'))
      by (intros q' Hq'; apply Hex; by right).
    destruct (match t with Some newest => newest <? node_mtime n | None => true end);
      by apply IH.
Qed.

(** Either every path of a list exists, or the list has a first path that
    does not. *)
Lemma all_exist_or_first_missing (m : gmap path node) (paths : list path) :
  (forall p, p ∈ paths -> is_Some (m !! p))
  \/ exists l1 p l2,
       paths = l1 ++ p :: l2 /\ m !! p = None /\
       forall q, q ∈ l1 -> is_Some (m !! q).
Proof.
  induction paths as [|p paths IH].
  - left. intros p Hp. by apply elem_of_nil in Hp.
  - destruct (m !! p) as [n|] eqn:Hp.
    + destruct IH as [Hall|(l1 & q & l2 & -> & Hq & Hl1)].
      * left. intros q Hq. apply elem_of_cons in Hq as [->|Hq]; [by exists n|auto].
      * right. exists (p :: l1), q, l2. repeat split; [done|].
        intros q' Hq'. apply elem_of_cons in Hq' as [->|Hq']; [by exists n|auto].
    + right. exists [], p, paths. repeat split; [done|].
      intros q Hq. by apply elem_of_nil in Hq.
Qed.



(** What a returned path tells about the list it was chosen from. *)
Lemma find_latest_modified_directory_Some_inv paths w r w' :
  find_latest_modified_directory paths w = (Ok (Some r), w') ->
  w' = w /\ r ∈ paths /\
  exists tr, mtime_in (fs w) r = Some tr /\
    forall q tq, q ∈ paths -> mtime_in (fs w) q = Some tq -> tq <= tr.
Proof.
  intros Hrun.
  destruct (all_exist_or_first_missing (fs w) paths)
    as [Hall|(l1 & p & l2 & -> & Hp & Hl1)].
  - destruct paths as [|p0 paths'] eqn:E; [discriminate|].
    destruct (find_latest_modified_directory_spec (p0 :: paths') w)
      as (r' & l1 & l2 & tr & Hrun' & Hsplit & Htr & H1 & H2); [done|done|].
    rewrite Hrun' in Hrun. injection Hrun as -> <-.
    split; [done|]. split.
    + rewrite Hsplit. apply elem_of_app. right. left.
    + exists tr. split; [done|]. intros q tq Hq Hmq.
      rewrite Hsplit in Hq. apply elem_of_app in Hq as [Hq|Hq].
      * pose proof (H1 _ _ Hq Hmq). lia.
      * apply elem_of_cons in Hq as [->|Hq]; [|by apply (H2 q)].
        rewrite Htr in Hmq. injection Hmq as <-. lia.
  - unfold find_latest_modified_directory in Hrun.
    rewrite (find_latest_loop_first_missing _ _ _ _ _ _ Hl1 Hp) in Hrun.
    discriminate.
Qed.

(** X2.  Whenever [find_latest_modified_directory] returns a path, the
    world is as it was, the path is one of the list, and no path of the
    list has a later modification time: the choice is by timestamp alone,
    for files as for directories. *)
Theorem find_latest_modified_directory_newest paths w r w' :
  find_latest_modified_directory paths w = (Ok (Some r), w') ->
  w' = w /\ r ∈ paths /\
  exists tr, mtime_in (fs w) r = Some tr /\
    forall q tq, q ∈ paths -> mtime_in (fs w) q = Some tq -> tq <= tr.
Proof. apply find_latest_modified_directory_Some_inv. Qed.

Lemma find_latest_modified_directory_newest_witness :
  ["data"; "z.txt"] ∈ [["data"; "run_a"]; ["data"; "z.txt"]; ["data"; "run_b"]] /\
  exists tr, mtime_in (fs sample_world) ["data"; "z.txt"] = Some tr /\
    forall q tq,
      q ∈ [["data"; "run_a"]; ["data"; "z.txt"]; ["data"; "run_b"]] ->
      mtime_in (fs sample_world) q = Some tq -> tq <= tr.
Proof.
  destruct (find_latest_modified_directory_newest
              [["data"; "run_a"]; ["data"; "z.txt"]; ["data"; "run_b"]]
              sample_world ["data"; "z.txt"] sample_world) as (_ & Hin & Hmax).
  - vm_compute. reflexivity.
  - split; [exact Hin|exact Hmax].
Defined.



(** X4.  Whatever the locator returns is a directory right below the
    configured parent: never the parent, never a file, never a directory
    further down; no directory right below the parent has a later
    modification time; and the world is as it was. *)
Theorem find_backup_folder_picks_newest_child cfg w src w' :
  find_backup_folder cfg w = (Ok src, w') ->
  w' = w /\
  exists name t,
    src = Some (os_path_join (machine_backup_folder_path cfg) name) /\
    fs w !! os_path_join (machine_backup_folder_path cfg) name = Some (Dir t) /\
    forall name' t',
      fs w !! os_path_join (machine_backup_folder_path cfg) name' = Some (Dir t') ->
      t' <= t.
Proof.
  intros H. pose proof (find_backup_folder_reads _ _ _ _ H) as ->.
  split; [done|].
  unfold find_backup_folder, bind in H.
  destruct (os_scandir (machine_backup_folder_path cfg) w) as [r w1] eqn:Hscan.
  destruct (scandir_inv _ _ _ _ Hscan) as [-> Hent].
  destruct r as [entries|e]; [|discriminate].
  destruct (Hent entries eq_refl) as (tp & Hparent & ->).
  destruct (length _ =? 0)%nat eqn:Hlen; [discriminate|].
  destruct src as [r|].
  - apply find_latest_modified_directory_Some_inv in H as (_ & Hin & tr & Htr & Hmax).
    apply elem_of_scanned_directories in Hin as (name & t & -> & Hl).
    exists name, t. split; [done|]. split; [done|].
    intros name' t' Hl'.
    assert (t = tr) as -> by exact (mtime_in_Dir _ _ _ _ Hl Htr).
    apply (Hmax (os_path_join (machine_backup_folder_path cfg) name')).
    + apply elem_of_scanned_directories. by exists name', t'.
    + exact (mtime_in_Some _ _ _ Hl').
  - exfalso.
    match type of H with find_latest_modified_directory ?L _ = _ =>
      destruct (find_latest_modified_directory_spec L w)
        as (r & l1 & l2 & tr & Hrun & _);
      [intros E; rewrite E in Hlen; discriminate
      |intros p Hp; by apply scanned_directories_exist in Hp|]
    end.
    rewrite Hrun in H. discriminate.
Qed.

Lemma find_backup_folder_picks_newest_child_witness :
  exists name t,
    Some ["data"; "run_b"] = Some (os_path_join ["data"] name) /\
    fs nested_world !! os_path_join ["data"] name = Some (Dir t) /\
    forall name' t',
      fs nested_world !! os_path_join ["data"] name' = Some (Dir t') -> t' <= t.
Proof.
  destruct (find_backup_folder_picks_newest_child sample_config nested_world
              (Some ["data"; "run_b"]) nested_world) as (_ & H).
  - vm_compute. reflexivity.
  - exact H.
Defined.

(** ** Creating the scratch directory *)

Lemma mkdir_parents_dirs rest : forall base (t : Z) (m m' : gmap path node),
  mkdir_parents base rest t m = inr m' ->
  forall k, k <> [] -> k `prefix_of` rest ->
    exists t', m' !! (base ++ k) = Some (Dir t').
Proof.
  induction rest as [|c rest IH]; intros base t m m' Hrun k Hk [r Hr].
  - symmetry in Hr. apply app_eq_nil in Hr as [-> _]. done.
  - destruct k as [|c0 k]; [done|]. injection Hr as <- Hr.
    simpl in Hrun.
    assert (Hstay : forall m0 : gmap path node,
              mkdir_parents (os_path_join base c) rest t m0 = inr m' ->
              (exists t0, m0 !! os_path_join base c = Some (Dir t0)) ->
              exists t', m' !! (base ++ c :: k) = Some (Dir t')).
    { intros m0 Hrec [t0 Hq0].
      destruct k as [|c2 k].
      - destruct (mkdir_parents_spec _ _ _ _ _ Hrec (os_path_join base c))
          as [E|(E & _)]; [|congruence].
        exists t0. unfold os_path_join in *. by rewrite E.
      - destruct (IH _ _ _ _ Hrec (c2 :: k)) as [t' Ht']; [done|by exists r|].
        exists t'. unfold os_path_join in Ht'. by rewrite <- app_assoc in Ht'. }
    destruct (m !! os_path_join base c) as [[cf tf|td]|] eqn:Hq0; [done| |].
    + apply (Hstay m Hrun). eauto.
    + apply (Hstay _ Hrun). rewrite lookup_insert_eq. eauto.
Qed.

Lemma mkdir_parents_blocked rest : forall base (t : Z) (m : gmap path node) k cf tf,
  k <> [] -> k `prefix_of` rest ->
  m !! (base ++ k) = Some (File cf tf) ->
  exists q, mkdir_parents base rest t m = inl (NotADirectoryError q).
Proof.
  induction rest as [|c rest IH]; intros base t m k cf tf Hk [r Hr] Hfile.
  - symmetry in Hr. apply app_eq_nil in Hr as [-> _]. done.
  - destruct k as [|c0 k]; [done|]. injection Hr as <- Hr. simpl.
    destruct k as [|c2 k].
    + unfold os_path_join. rewrite Hfile. eauto.
    + assert (Hdeeper : base ++ c :: c2 :: k = os_path_join base c ++ c2 :: k)
        by (unfold os_path_join; by rewrite <- app_assoc).
      assert (Hne : os_path_join base c <> os_path_join base c ++ c2 :: k).
      { intros E. apply (f_equal length) in E. rewrite length_app in E.
        simpl in E. lia. }
      rewrite Hdeeper in Hfile.
      destruct (m !! os_path_join base c) as [[cg tg|td]|] eqn:Hq0; [eauto| |].
      * apply (IH _ _ _ (c2 :: k) cf tf); [done|by exists r|done].
      * apply (IH _ _ _ (c2 :: k) cf tf); [done|by exists r|].
        by rewrite lookup_insert_ne.
Qed.

Lemma mkdir_parents_ok rest : forall base (t : Z) (m : gmap path node),
  (forall k cf tf, k <> [] -> k `prefix_of` rest ->
     m !! (base ++ k) <> Some (File cf tf)) ->
  exists m', mkdir_parents base rest t m = inr m'.
Proof.
  induction rest as [|c rest IH]; intros base t m Hfree; simpl; [eauto|].
  assert (Hrec : forall m0 : gmap path node,
            (forall q, q <> os_path_join base c -> m0 !! q = m !! q) ->
            exists m', mkdir_parents (os_path_join base c) rest t m0 = inr m').
  { intros m0 Hsame. apply IH. intros k cf tf Hk [r Hr] Hfile.
    destruct k as [|c2 k]; [done|].
    rewrite Hsame in Hfile.
    - apply (Hfree (c :: c2 :: k) cf tf); [done| |].
      + exists r. simpl. by rewrite Hr.
      + unfold os_path_join in Hfile. by rewrite <- app_assoc in Hfile.
    - intros E. apply (f_equal length) in E. unfold os_path_join in E.
      rewrite !length_app in E. simpl in E. lia. }
  destruct (m !! os_path_join base c) as [[cf tf|td]|] eqn:Hq0.
  - exfalso. apply (Hfree [c] cf tf); [done|by exists rest|done].
  - apply Hrec. done.
  - apply Hrec. intros q Hq. by rewrite lookup_insert_ne.
Qed.

Lemma prefix_of_pair (k : path) (a b : string) :
  k `prefix_of` [a; b] -> k = [] \/ k = [a] \/ k = [a; b].
Proof.
  intros [r Hr]. destruct k as [|x [|y [|z k]]]; simpl in Hr.
  - by left.
  - injection Hr as <- _. right. by left.
  - injection Hr as <- <- _. right. by right.
  - injection Hr as _ _ Hr. destruct k; discriminate.
Qed.

(** X5.  When nothing is at the path and no part of the way to it is a
    regular file, [create_directory] returns; the path and every path on
    the way to it are directories afterwards, a directory that was there
    is still a directory, and nothing off the way to the path is touched. *)
Theorem create_directory_creates_missing_parents dir_path w :
  fs w !! dir_path = None ->
  (forall k cf tf, k <> [] -> k `prefix_of` dir_path ->
     fs w !! k <> Some (File cf tf)) ->
  exists w',
    create_directory dir_path w = (Ok tt, w') /\
    (forall k, k <> [] -> k `prefix_of` dir_path ->
       exists t, fs w' !! k = Some (Dir t)) /\
    (forall q t, fs w !! q = Some (Dir t) -> exists t', fs w' !! q = Some (Dir t')) /\
    (forall q, ~ q `prefix_of` dir_path -> fs w' !! q = fs w !! q).
Proof.
  intros Habsent Hfree.
  destruct (mkdir_parents_ok dir_path [] (clock w) (fs w)) as [m Hm];
    [exact Hfree|].
  exists (set_fs m w). split; [|split; [|split]].
  - unfold create_directory, bind, os_path_exists.
    rewrite bool_decide_eq_false_2 by (rewrite Habsent; by intros [? ?]).
    simpl. unfold os_makedirs. by rewrite Habsent, Hm.
  - intros k Hk Hpre. simpl.
    exact (mkdir_parents_dirs _ _ _ _ _ Hm k Hk Hpre).
  - intros q t Hq. simpl. exists t.
    destruct (mkdir_parents_spec _ _ _ _ _ Hm q) as [E|(E & _)]; congruence.
  - intros q Hq. simpl.
    destruct (mkdir_parents_spec _ _ _ _ _ Hm q) as [E|(_ & _ & E)]; [done|].
    by destruct Hq.
Qed.

Lemma create_directory_creates_missing_parents_witness :
  exists w',
    create_directory ["srv"; "tools"] first_run_world = (Ok tt, w') /\
    (exists t, fs w' !! ["srv"; "tools"] = Some (Dir t)) /\
    fs w' !! ["data"; "run_a"] = fs first_run_world !! ["data"; "run_a"].
Proof.
  destruct (create_directory_creates_missing_parents ["srv"; "tools"] first_run_world)
    as (w' & Hrun & Hdirs & _ & Hoff).
  - reflexivity.
  - intros k cf tf Hk Hpre.
    apply prefix_of_pair in Hpre as [->|[->| ->]]; [done|discriminate|discriminate].
  - exists w'. split; [exact Hrun|]. split.
    + apply Hdirs; [discriminate|done].
    + apply Hoff. intros Hpre.
      apply prefix_of_pair in Hpre as [E|[E|E]]; discriminate E.
Defined.

(** X6.  When nothing is at the path but a regular file lies on the way
    to it, [create_directory] raises [NotADirectoryError] and the world is
    as it was. *)
Theorem create_directory_blocked_by_file dir_path w k cf tf :
  fs w !! dir_path = None ->
  k <> [] -> k `prefix_of` dir_path ->
  fs w !! k = Some (File cf tf) ->
  exists q, create_directory dir_path w = (Raise (NotADirectoryError q), w).
Proof.
  intros Habsent Hk Hpre Hfile.
  destruct (mkdir_parents_blocked dir_path [] (clock w) (fs w) k cf tf)
    as [q Hq]; [done|done|done|].
  exists q. unfold create_directory, bind, os_path_exists.
  rewrite bool_decide_eq_false_2 by (rewrite Habsent; by intros [? ?]).
  simpl. unfold os_makedirs. by rewrite Habsent, Hq.
Qed.

(** The exception names the scratch directory, which could not be made. *)
Example create_directory_blocked_names_directory :
  create_directory ["app"; "temp"] script_dir_is_file_world
  = (Raise (NotADirectoryError ["app"; "temp"]), script_dir_is_file_world).
Proof. vm_compute. reflexivity. Qed.

Lemma create_directory_blocked_by_file_witness :
  exists q,
    create_directory ["app"; "temp"] script_dir_is_file_world
    = (Raise (NotADirectoryError q), script_dir_is_file_world).
Proof.
  apply (create_directory_blocked_by_file ["app"; "temp"]
           script_dir_is_file_world ["app"] [x00] 1).
  - reflexivity.
  - discriminate.
  - by exists ["temp"].
  - reflexivity.
Defined.

(** X7.  [create_directory] is idempotent: after a call that returned, a
    second call for the same path returns and changes nothing. *)
Theorem create_directory_idempotent dir_path w w1 :
  create_directory dir_path w = (Ok tt, w1) ->
  create_directory dir_path w1 = (Ok tt, w1).
Proof.
  unfold create_directory, bind, os_path_exists.
  case_bool_decide as Hex; simpl.
  - intros [= <-]. by rewrite bool_decide_eq_true_2.
  - unfold os_makedirs.
    destruct (fs w !! dir_path) as [n|] eqn:Habsent; [discriminate|].
    destruct (mkdir_parents [] dir_path (clock w) (fs w)) as [e|m] eqn:Hm;
      [discriminate|].
    intros [= <-]. simpl.
    destruct dir_path as [|c rest].
    + simpl in Hm. injection Hm as <-.
      rewrite bool_decide_eq_false_2 by (rewrite Habsent; by intros [? ?]).
      simpl. rewrite Habsent. simpl. reflexivity.
    + destruct (mkdir_parents_dirs _ _ _ _ _ Hm (c :: rest)) as [t' Ht'];
        [done|done|].
      simpl in Ht'. rewrite bool_decide_eq_true_2 by (by rewrite Ht').
      reflexivity.
Qed.

Lemma create_directory_idempotent_witness :
  create_directory ["srv"; "tools"]
    (create_directory ["srv"; "tools"] first_run_world).2
  = (Ok tt, (create_directory ["srv"; "tools"] first_run_world).2).
Proof.
  apply (create_directory_idempotent ["srv"; "tools"] first_run_world).
  vm_compute. reflexivity.
Defined.

(** ** More on the sweep and the clean-up *)

(** A loop of removals that completes has removed regular files only, and
    leaves none of the names behind. *)
Lemma remove_loop_Ok_inv temp names : forall w w',
  for_each names (fun f => os_remove (os_path_join temp f)) w = (Ok tt, w') ->
  forall f, f ∈ names ->
    fs w' !! os_path_join temp f = None /\
    exists c t, fs w !! os_path_join temp f = Some (File c t).
Proof.
  induction names as [|g names IH]; intros w w' Hrun f Hf.
  - by apply elem_of_nil in Hf.
  - simpl in Hrun. unfold bind in Hrun.
    destruct (os_remove (os_path_join temp g) w) as [r1 w1] eqn:Hrm.
    apply remove_inv in Hrm as [(-> & -> & c & t & Hg)|(-> & e & ->)];
      [|discriminate].
    apply elem_of_cons in Hf as [->|Hf].
    + split; [|eauto].
      destruct (remove_loop_frame _ _ _ _ _ Hrun) as (_ & _ & Hfs).
      destruct (Hfs (os_path_join temp g)) as [E|[E _]]; [|done].
      rewrite E. simpl. apply lookup_delete_eq.
    + destruct (IH _ _ Hrun f Hf) as (Hnone & c' & t' & Hl).
      split; [done|]. exists c', t'. simpl in Hl.
      destruct (decide (os_path_join temp g = os_path_join temp f)) as [E|Hne].
      * rewrite E, lookup_delete_eq in Hl. discriminate.
      * by rewrite lookup_delete_ne in Hl.
Qed.

Lemma clean_temp_folder_Ok_inv cfg w w' :
  clean_temp_folder cfg w = (Ok tt, w') ->
  (exists t, fs w !! build_local_path cfg TEMP_DIR_NAME = Some (Dir t)) /\
  (forall f, endswith f ".zip" = true ->
     fs w' !! os_path_join (build_local_path cfg TEMP_DIR_NAME) f = None /\
     forall t', fs w !! os_path_join (build_local_path cfg TEMP_DIR_NAME) f
                <> Some (Dir t')).
Proof.
  intros Hrun. pose proof Hrun as Hloop.
  unfold clean_temp_folder, bind in Hloop.
  destruct (os_listdir _ w) as [rl wl] eqn:Hls.
  destruct (listdir_inv _ _ _ _ Hls) as [-> Hnames].
  destruct rl as [names|e]; [|discriminate].
  destruct (Hnames names eq_refl) as (t & Htemp & ->).
  split; [by exists t|]. intros f He.
  destruct (fs w !! os_path_join (build_local_path cfg TEMP_DIR_NAME) f)
    as [n|] eqn:Hl.
  - destruct (remove_loop_Ok_inv _ _ _ _ Hloop f) as (Hnone & c & t' & Hfile).
    { apply elem_of_zip_files. split; [done|]. by exists n. }
    split; [done|]. intros t'' E. congruence.
  - split; [|done].
    destruct (clean_temp_folder_frame _ _ _ _ Hrun) as (_ & _ & Hfs).
    destruct (Hfs (os_path_join (build_local_path cfg TEMP_DIR_NAME) f))
      as [E|[E _]]; [by rewrite E|done].
Qed.

Lemma clean_temp_folder_runs cfg w t :
  fs w !! build_local_path cfg TEMP_DIR_NAME = Some (Dir t) ->
  (forall f t', endswith f ".zip" = true ->
     fs w !! os_path_join (build_local_path cfg TEMP_DIR_NAME) f <> Some (Dir t')) ->
  exists w', clean_temp_folder cfg w = (Ok tt, w').
Proof.
  intros Htemp Hfiles.
  destruct (remove_loop_ok (build_local_path cfg TEMP_DIR_NAME)
              (List.filter (fun f => endswith f ".zip")
                 (map fst (children (fs w) (build_local_path cfg TEMP_DIR_NAME)))))
    with (w := w) as (w' & Hrun & _).
  { apply NoDup_ListNoDup, List.NoDup_filter, NoDup_ListNoDup,
      children_names_NoDup. }
  { intros f Hf. apply elem_of_zip_files in Hf as [He [n Hn]].
    destruct n as [c t'|t']; [by exists c, t'|].
    by destruct (Hfiles f t' He). }
  exists w'. unfold clean_temp_folder, bind, os_listdir. by rewrite Htemp.
Qed.

(** X8.  The sweep completes exactly when the scratch directory is a
    directory and none of its entries named [*.zip] is a directory; in
    every other state it ends with an exception. *)
Theorem clean_temp_folder_completes_iff cfg w :
  (exists w', clean_temp_folder cfg w = (Ok tt, w'))
  <-> (exists t, fs w !! build_local_path cfg TEMP_DIR_NAME = Some (Dir t)) /\
      (forall f t', endswith f ".zip" = true ->
         fs w !! os_path_join (build_local_path cfg TEMP_DIR_NAME) f
         <> Some (Dir t')).
Proof.
  split.
  - intros [w' Hrun]. apply clean_temp_folder_Ok_inv in Hrun as [Htemp Hzip].
    split; [done|]. intros f t' He. by apply Hzip.
  - intros [[t Htemp] Hfiles]. by apply (clean_temp_folder_runs cfg w t).
Qed.

Lemma clean_temp_folder_completes_iff_witness :
  exists w', clean_temp_folder sample_config sample_world = (Ok tt, w').
Proof.
  apply (proj2 (clean_temp_folder_completes_iff sample_config sample_world)).
  split.
  - exists 2. reflexivity.
  - intros f t' He Hl. apply dir_child_listed in Hl. listed Hl.
Defined.

(** X9.  When the sweep returns, no entry named [*.zip] is left right
    below the scratch directory. *)
Theorem clean_temp_folder_leaves_no_zip cfg w w' f :
  clean_temp_folder cfg w = (Ok tt, w') ->
  endswith f ".zip" = true ->
  fs w' !! os_path_join (build_local_path cfg TEMP_DIR_NAME) f = None.
Proof.
  intros Hrun He. apply clean_temp_folder_Ok_inv in Hrun as [_ Hzip].
  by apply Hzip.
Qed.

Lemma clean_temp_folder_leaves_no_zip_witness :
  fs (clean_temp_folder sample_config sample_world).2 !! ["app"; "temp"; "old.zip"]
  = None.
Proof.
  apply (clean_temp_folder_leaves_no_zip sample_config sample_world
           (clean_temp_folder sample_config sample_world).2 "old.zip").
  - vm_compute. reflexivity.
  - reflexivity.
Defined.

(** X10.  The sweep is idempotent: after a sweep that returned, a second
    sweep returns and changes nothing. *)
Theorem clean_temp_folder_idempotent cfg w w' :
  clean_temp_folder cfg w = (Ok tt, w') ->
  clean_temp_folder cfg w' = (Ok tt, w').
Proof.
  intros Hrun.
  pose proof (clean_temp_folder_Ok_inv _ _ _ Hrun) as [[t Htemp] Hzip].
  destruct (clean_temp_folder_local _ _ _ _ Hrun) as [(Hdirs & _) _].
  apply Hdirs in Htemp.
  unfold clean_temp_folder, bind, os_listdir. rewrite Htemp.
  destruct (List.filter (fun f => endswith f ".zip")
              (map fst (children (fs w') (build_local_path cfg TEMP_DIR_NAME))))
    as [|f l] eqn:E; [done|].
  exfalso.
  assert (Hf : f ∈ List.filter (fun f => endswith f ".zip")
                 (map fst (children (fs w') (build_local_path cfg TEMP_DIR_NAME))))
    by (rewrite E; left).
  apply elem_of_zip_files in Hf as [He [n Hn]].
  destruct (Hzip f He) as [Hnone _]. congruence.
Qed.

Lemma clean_temp_folder_idempotent_witness :
  clean_temp_folder sample_config (clean_temp_folder sample_config sample_world).2
  = (Ok tt, (clean_temp_folder sample_config sample_world).2).
Proof.
  apply (clean_temp_folder_idempotent sample_config sample_world).
  vm_compute. reflexivity.
Defined.

(** X11.  The clean-up sweeps first: when the sweep raises, the clean-up
    ends with that exception at the state the sweep left, and the source
    directory is not sent to the trash, flag or no flag. *)
Theorem cleanup_stops_when_sweep_raises cfg backup_folder w e w1 :
  clean_temp_folder cfg w = (Raise e, w1) ->
  cleanup cfg backup_folder w = (Raise e, w1) /\ trash w1 = trash w.
Proof.
  intros Hsweep. split.
  - unfold cleanup, bind. by rewrite Hsweep.
  - by destruct (clean_temp_folder_frame _ _ _ _ Hsweep) as (_ & Ht & _).
Qed.

Lemma cleanup_stops_when_sweep_raises_witness :
  cleanup trashing_config (Some ["app"; "temp"; "b.zip"]) zip_named_directory_world
  = (Raise (IsADirectoryError ["app"; "temp"; "b.zip"]),
     (clean_temp_folder trashing_config zip_named_directory_world).2)
  /\ trash (clean_temp_folder trashing_config zip_named_directory_world).2 = [].
Proof.
  apply (cleanup_stops_when_sweep_raises trashing_config
           (Some ["app"; "temp"; "b.zip"]) zip_named_directory_world).
  vm_compute. reflexivity.
Defined.

(** ** More on the run *)

Section RunFacts.

Variable zip_encode : list (path * node) -> data.
Variable s3_fault : string -> string -> data -> option exn.

Lemma set_fs_same w : set_fs (fs w) w = w.
Proof. by destruct w. Qed.

Lemma setup_Ok_exists cfg w w1 :
  setup cfg w = (Ok tt, w1) ->
  is_Some (fs w1 !! build_local_path cfg TEMP_DIR_NAME).
Proof.
  unfold setup, setup_temp_folder, create_directory, bind, os_path_exists.
  case_bool_decide as Hex; simpl.
  - by intros [= <-].
  - unfold os_makedirs.
    destruct (fs w !! _) as [n|] eqn:Hl; [discriminate|].
    destruct (mkdir_parents _ _ _ _) as [e|m] eqn:Hmk; [discriminate|].
    intros [= <-]. simpl.
    destruct (mkdir_parents_dirs _ _ _ _ _ Hmk
                (build_local_path cfg TEMP_DIR_NAME)) as [t Ht].
    + unfold build_local_path, os_path_join. by destruct (script_directory cfg).
    + done.
    + by exists (Dir t).
Qed.

Lemma cleanup_Ok_inv cfg src w w' :
  cleanup cfg src w = (Ok tt, w') ->
  exists w4,
    clean_temp_folder cfg w = (Ok tt, w4) /\
    ((TRASH_BACKUP_FOLDER cfg = false /\ w' = w4)
     \/ (TRASH_BACKUP_FOLDER cfg = true /\
         exists p, src = Some p /\ is_Some (fs w4 !! p) /\
           w' = World (filter (fun kn => is_under p kn.1 = false) (fs w4))
                      (bucket_objects w4)
                      ((p, filter (fun kn => is_under p kn.1 = true) (fs w4))
                         :: trash w4)
                      (localtime w4) (clock w4) (cwd w4))).
Proof.
  unfold cleanup, bind. intros H.
  destruct (clean_temp_folder cfg w) as [[[]|e] w4] eqn:Hsweep; [|discriminate].
  exists w4. split; [done|].
  destruct (TRASH_BACKUP_FOLDER cfg).
  - right. split; [done|].
    unfold trash_backup_folder, send2trash in H.
    destruct src as [p|]; [|discriminate].
    destruct (fs w4 !! p) as [n|] eqn:Hp; [|discriminate].
    injection H as <-. exists p. eauto.
  - left. by injection H as <-.
Qed.

Lemma cleanup_bucket cfg src w r w' :
  cleanup cfg src w = (r, w') -> bucket_objects w' = bucket_objects w.
Proof.
  unfold cleanup, bind. intros H.
  destruct (clean_temp_folder cfg w) as [r6 w4] eqn:Hsweep.
  destruct (clean_temp_folder_frame _ _ _ _ Hsweep) as (Hb & _).
  destruct r6 as [[]|e]; [|by injection H as <- <-].
  destruct (TRASH_BACKUP_FOLDER cfg); [|by injection H as <- <-].
  unfold trash_backup_folder, send2trash in H.
  destruct src as [p|]; [|by injection H as <- <-].
  destruct (fs w4 !! p); by injection H as <- <-.
Qed.

(** The archiver called as the run calls it, on a directory and with the
    scratch directory in place, writes the archive of that directory. *)
Lemma make_archive_in_scratch temp name p w zip w' :
  is_Some (fs w !! temp) ->
  shutil_make_archive zip_encode (os_path_join temp name) (Some p) w = (Ok zip, w') ->
  w' = set_fs (<[os_path_join temp (name +:+ ".zip") :=
                   File (zip_encode (subtree (fs w) p)) (clock w)]> (fs w)) w.
Proof.
  intros Htemp. unfold shutil_make_archive. simpl.
  rewrite dirname_join, path_add_suffix_join.
  destruct (fs w !! p) as [[c t|t]|]; try discriminate.
  rewrite bool_decide_eq_true_2 by done.
  destruct (fs w !! temp) as [[c1 t1|t1]|];
    destruct (fs w !! os_path_join temp (name +:+ ".zip")) as [[c2 t2|t2]|];
    try discriminate; by intros [= _ <-].
Qed.

(** X13.  When the locator raises, the run ends with its exception right
    there: the scratch directory is in place, made by [setup] if it was
    missing, nothing off the way to the scratch directory has changed in
    the filesystem, and the bucket and the trash are as they were. *)
Theorem main_stops_when_locator_raises cfg w w1 e :
  setup cfg w = (Ok tt, w1) ->
  find_backup_folder cfg w1 = (Raise e, w1) ->
  main zip_encode s3_fault cfg w = (Raise e, w1) /\
  bucket_objects w1 = bucket_objects w /\ trash w1 = trash w /\
  is_Some (fs w1 !! build_local_path cfg TEMP_DIR_NAME) /\
  forall q, ~ q `prefix_of` build_local_path cfg TEMP_DIR_NAME ->
    fs w1 !! q = fs w !! q.
Proof.
  intros Hsetup Hfind. split; [|split; [|split; [|split]]].
  - unfold main, bind. by rewrite Hsetup, Hfind.
  - apply (setup_local _ _ _ _ Hsetup).
  - apply (setup_local _ _ _ _ Hsetup).
  - exact (setup_Ok_exists _ _ _ Hsetup).
  - intros q Hq.
    destruct (setup_creates_above_scratch _ _ _ _ Hsetup q) as [E|[_ E]];
      [done|by destruct Hq].
Qed.

(** X14.  When a regular file sits where the scratch directory should
    be, [setup] takes it for the directory and says nothing; the run then
    ends at the archiver with [NotADirectoryError] for the archive path,
    and the world is as it was. *)
Theorem main_scratch_is_a_file cfg w c t src :
  fs w !! build_local_path cfg TEMP_DIR_NAME = Some (File c t) ->
  find_backup_folder cfg w = (Ok src, w) ->
  main zip_encode s3_fault cfg w
  = (Raise (NotADirectoryError
              (os_path_join (build_local_path cfg TEMP_DIR_NAME)
                 (BACKUP_PREFIX +:+ "_" +:+ strftime_Ymd_HMS (localtime w)
                    +:+ ".zip"))), w).
Proof.
  intros Htemp Hfind.
  destruct (find_backup_folder_selects _ _ _ _ Hfind) as (n & tn & -> & Hl).
  unfold main. unfold bind at 1.
  unfold setup, setup_temp_folder, create_directory, bind at 1, os_path_exists.
  rewrite bool_decide_eq_true_2 by (by rewrite Htemp). simpl.
  unfold bind at 1. rewrite Hfind.
  unfold bind at 1. rewrite create_backup_name_eq.
  unfold bind at 1. unfold shutil_make_archive. simpl.
  rewrite Hl, dirname_join, path_add_suffix_join.
  rewrite bool_decide_eq_true_2 by (by rewrite Htemp).
  rewrite Htemp, set_fs_same. reflexivity.
Qed.

(** X15.  A run that completes has stored, under its key, the archive of
    the directory the locator selected: provided the scratch directory is
    neither that directory nor inside it, the object is [zip_encode]
    applied to every entry below that directory as it was when the run
    began archiving, with nothing left out. *)
Theorem main_uploads_archive_of_selected cfg w w' :
  main zip_encode s3_fault cfg w = (Ok tt, w') ->
  exists w1 src,
    setup cfg w = (Ok tt, w1) /\
    find_backup_folder cfg w1 = (Ok (Some src), w1) /\
    (is_under src (build_local_path cfg TEMP_DIR_NAME) = false ->
     bucket_objects w'
       !! (wasabi_archive_bucket_name cfg,
           machine_name cfg +:+ "/" +:+ BACKUP_PREFIX +:+ "_"
             +:+ strftime_Ymd_HMS (localtime w) +:+ ".zip")
     = Some (zip_encode (subtree (fs w1) src))).
Proof.
  intros Hrun.
  apply main_inv in Hrun
    as [(e & He & _)|(src & w1 & w2 & w3 & H1 & H2 & H3 & H4 & H5)];
    [discriminate|].
  destruct (find_backup_folder_selects _ _ _ _ H2) as (n & tn & -> & Hl).
  exists w1, (os_path_join (machine_backup_folder_path cfg) n).
  split; [done|]. split; [done|]. intros _.
  apply make_archive_in_scratch in H3; [|by apply (setup_Ok_exists _ _ _ H1)].
  unfold upload_zipped_folder in H4.
  apply upload_inv in H4 as [(e & He & _)|(body & t & _ & Hfile & _ & ->)];
    [discriminate|].
  rewrite H3 in Hfile. simpl in Hfile. rewrite lookup_insert_eq in Hfile.
  injection Hfile as <- _.
  rewrite (cleanup_bucket _ _ _ _ _ H5). simpl.
  apply lookup_insert_eq.
Qed.

(** X16.  A run that completes leaves no entry named [*.zip] right below
    the scratch directory: the archive it made is gone with any other. *)
Theorem main_leaves_no_zip_in_scratch cfg w w' f :
  main zip_encode s3_fault cfg w = (Ok tt, w') ->
  endswith f ".zip" = true ->
  fs w' !! os_path_join (build_local_path cfg TEMP_DIR_NAME) f = None.
Proof.
  intros Hrun He.
  apply main_inv in Hrun
    as [(e & Hr & _)|(src & w1 & w2 & w3 & _ & _ & _ & _ & H5)];
    [discriminate|].
  apply cleanup_Ok_inv in H5 as (w4 & Hsweep & [[_ ->]|(_ & p & _ & _ & ->)]).
  - apply clean_temp_folder_Ok_inv in Hsweep as [_ Hzip]. by apply Hzip.
  - simpl. apply map_lookup_filter_None. left.
    apply clean_temp_folder_Ok_inv in Hsweep as [_ Hzip]. by apply Hzip.
Qed.

(** X17.  With the trash flag set, a run that completes has trashed one
    directory, the one the locator selected and the archiver archived:
    the trash has one more entry, for that directory, and neither the
    directory nor anything below it is in the filesystem any more. *)
Theorem main_trashes_the_selected_directory cfg w w' :
  TRASH_BACKUP_FOLDER cfg = true ->
  main zip_encode s3_fault cfg w = (Ok tt, w') ->
  exists w1 src (entry : gmap path node),
    setup cfg w = (Ok tt, w1) /\
    find_backup_folder cfg w1 = (Ok (Some src), w1) /\
    trash w' = (src, entry) :: trash w /\
    forall q, is_under src q = true -> fs w' !! q = None.
Proof.
  intros Hflag Hrun.
  apply main_inv in Hrun
    as [(e & Hr & _)|(src & w1 & w2 & w3 & H1 & H2 & H3 & H4 & H5)];
    [discriminate|].
  pose proof (setup_local _ _ _ _ H1) as (_ & _ & Ht1 & _).
  pose proof (make_archive_local _ _ _ _ _ _ _ H3) as (_ & _ & Ht2 & _).
  pose proof (upload_local_fs _ (build_local_path cfg TEMP_DIR_NAME)
                _ _ _ _ _ _ H4) as [(_ & _ & Ht3) _].
  apply cleanup_Ok_inv in H5 as (w4 & Hsweep & [[Hoff _]|(_ & p & -> & _ & ->)]);
    [congruence|].
  destruct (clean_temp_folder_frame _ _ _ _ Hsweep) as (_ & Ht4 & _).
  exists w1, p, (filter (fun kn => is_under p kn.1 = true) (fs w4)).
  split; [done|]. split; [done|]. split.
  - simpl. rewrite Ht4, Ht3, Ht2, Ht1. reflexivity.
  - intros q Hq. simpl. apply map_lookup_filter_None. right.
    intros x _. simpl. congruence.
Qed.

End RunFacts.

Lemma main_stops_when_locator_raises_witness :
  main sample_zip_encode network_up missing_parent_config first_run_world
  = (Raise (FileNotFoundError ["backups"]),
     (setup missing_parent_config first_run_world).2)
  /\ is_Some (fs (setup missing_parent_config first_run_world).2 !! ["srv"; "temp"])
  /\ fs (setup missing_parent_config first_run_world).2 !! ["data"; "run_a"]
     = fs first_run_world !! ["data"; "run_a"].
Proof.
  destruct (main_stops_when_locator_raises sample_zip_encode network_up
              missing_parent_config first_run_world
              (setup missing_parent_config first_run_world).2
              (FileNotFoundError ["backups"])) as (Hrun & _ & _ & Hscratch & Hoff).
  - vm_compute. reflexivity.
  - vm_compute. reflexivity.
  - split; [exact Hrun|]. split; [exact Hscratch|].
    apply Hoff. intros Hpre.
    apply prefix_of_pair in Hpre as [E|[E|E]]; discriminate E.
Defined.

Lemma main_scratch_is_a_file_witness :
  main sample_zip_encode network_up sample_config scratch_is_file_world
  = (Raise (NotADirectoryError ["app"; "temp"; "backup_20120515-155045.zip"]),
     scratch_is_file_world).
Proof.
  apply (main_scratch_is_a_file sample_zip_encode network_up sample_config
           scratch_is_file_world [x00] 2 (Some ["data"; "run_a"])).
  - reflexivity.
  - vm_compute. reflexivity.
Defined.

Lemma main_uploads_archive_of_selected_witness :
  exists w1,
    setup sample_config recent_world = (Ok tt, w1) /\
    find_backup_folder sample_config w1 = (Ok (Some ["data"; "run_b"]), w1) /\
    bucket_objects (main sample_zip_encode network_up sample_config recent_world).2
      !! ("archive", "box/backup_20120515-155045.zip")
    = Some (sample_zip_encode (subtree (fs w1) ["data"; "run_b"])).
Proof.
  destruct (main_uploads_archive_of_selected sample_zip_encode network_up
              sample_config recent_world
              (main sample_zip_encode network_up sample_config recent_world).2)
    as (w1 & src & Hsetup & Hfind & Hbody).
  - vm_compute. reflexivity.
  - assert (Hw1 : w1 = recent_world).
    { vm_compute in Hsetup. by injection Hsetup as <-. }
    subst w1.
    assert (src = ["data"; "run_b"]) as ->.
    { vm_compute in Hfind. by injection Hfind as <-. }
    exists recent_world. split; [exact Hsetup|]. split; [exact Hfind|].
    apply Hbody. reflexivity.
Defined.

Lemma main_leaves_no_zip_in_scratch_witness :
  fs (main sample_zip_encode network_up sample_config sample_world).2
    !! ["app"; "temp"; "backup_20120515-155045.zip"] = None.
Proof.
  apply (main_leaves_no_zip_in_scratch sample_zip_encode network_up
           sample_config sample_world
           (main sample_zip_encode network_up sample_config sample_world).2
           "backup_20120515-155045.zip").
  - vm_compute. reflexivity.
  - reflexivity.
Defined.

Lemma main_trashes_the_selected_directory_witness :
  exists w1 src (entry : gmap path node),
    setup trashing_config sample_world = (Ok tt, w1) /\
    find_backup_folder trashing_config w1 = (Ok (Some src), w1) /\
    trash (main sample_zip_encode network_up trashing_config sample_world).2
    = (src, entry) :: [] /\
    forall q, is_under src q = true ->
      fs (main sample_zip_encode network_up trashing_config sample_world).2 !! q
      = None.
Proof.
  apply (main_trashes_the_selected_directory sample_zip_encode network_up
           trashing_config sample_world).
  - reflexivity.
  - vm_compute. reflexivity.
Defined.

(** ** What a run without the trash flag can reach *)

Section RunReach.

Variable zip_encode : list (path * node) -> data.
Variable s3_fault : string -> string -> data -> option exn.

(** A property of two worlds that every step of a run keeps is kept by
    the run. *)
Lemma main_steps cfg (R : world -> world -> Prop) :
  (forall w, R w w) ->
  (forall a b c, R a b -> R b c -> R a c) ->
  (forall w r w', setup cfg w = (r, w') -> R w w') ->
  (forall name src w r w',
     shutil_make_archive zip_encode
       (os_path_join (build_local_path cfg TEMP_DIR_NAME) name) src w = (r, w') ->
     R w w') ->
  (forall name zip w r w',
     upload_zipped_folder s3_fault cfg name zip w = (r, w') -> R w w') ->
  (forall src w r w', cleanup cfg src w = (r, w') -> R w w') ->
  forall w r w', main zip_encode s3_fault cfg w = (r, w') -> R w w'.
Proof.
  intros Hrefl Htrans Hsetup Harch Hup Hclean w r w'.
  unfold main. unfold bind at 1.
  destruct (setup cfg w) as [r1 w1] eqn:H1. apply Hsetup in H1.
  destruct r1 as [[]|e]; [|by intros [= <- <-]].
  unfold bind at 1.
  destruct (find_backup_folder cfg w1) as [r2 w1'] eqn:H2.
  pose proof (find_backup_folder_reads _ _ _ _ H2) as ->.
  destruct r2 as [src|e]; [|by intros [= <- <-]].
  unfold bind at 1. rewrite create_backup_name_eq.
  unfold bind at 1.
  destruct (shutil_make_archive _ _ _ w1) as [r4 w2] eqn:H4. apply Harch in H4.
  destruct r4 as [zip|e]; [|intros [= <- <-]; eauto].
  unfold bind at 1.
  destruct (upload_zipped_folder _ _ _ _ w2) as [r5 w3] eqn:H5. apply Hup in H5.
  destruct r5 as [[]|e]; [|intros [= <- <-]; eauto].
  intros H6. apply Hclean in H6. eauto.
Qed.

(** X18.  A run without the trash flag, however it ends, changes nothing
    in the filesystem but the scratch directory and the directories above
    it, which it may create, and entries right below the scratch directory
    named [*.zip]: every other file of the scratch directory, and
    everything elsewhere, is as it was. *)
Theorem main_reaches_only_scratch_zips cfg w r w' q :
  TRASH_BACKUP_FOLDER cfg = false ->
  main zip_encode s3_fault cfg w = (r, w') ->
  ~ q `prefix_of` build_local_path cfg TEMP_DIR_NAME ->
  (forall f, endswith f ".zip" = true ->
     q <> os_path_join (build_local_path cfg TEMP_DIR_NAME) f) ->
  fs w' !! q = fs w !! q.
Proof.
  intros Hflag Hrun Hpre Hzip.
  revert w r w' Hrun.
  apply (main_steps cfg (fun a b => fs b !! q = fs a !! q)).
  - done.
  - intros a b c Hab Hbc. by rewrite Hbc.
  - intros w r w' H.
    destruct (setup_creates_above_scratch _ _ _ _ H q) as [E|[_ E]]; [done|].
    by destruct Hpre.
  - intros name src w r w' H.
    apply make_archive_inv in H as (m & Hm & Hres).
    rewrite dirname_join in Hm. rewrite path_add_suffix_join in Hres.
    assert (Hmq : w' = w \/ m !! q = fs w !! q).
    { destruct Hm as [->|[Hmk|[-> _]]]; [by right| |by left].
      right. destruct (mkdir_parents_spec _ _ _ _ _ Hmk q) as [E|(_ & _ & E)];
        [done|by destruct Hpre]. }
    destruct Hmq as [->|Hmq]; [done|].
    destruct Hres as [(e & _ & [->| ->])|(_ & _ & ->)]; [done|done|].
    simpl. rewrite lookup_insert_ne; [done|].
    intros E. apply (Hzip (name +:+ ".zip")); [|done].
    apply endswith_spec. by exists name.
  - intros name zip w r w' H. unfold upload_zipped_folder in H.
    by apply upload_inv in H as [(e & _ & ->)|(body & t & _ & _ & _ & ->)].
  - intros src w r w' H. unfold cleanup, bind in H. rewrite Hflag in H.
    destruct (clean_temp_folder cfg w) as [r6 w4] eqn:Hsweep.
    assert (w' = w4) as ->
      by (destruct r6 as [[]|e]; by injection H as _ <-).
    destruct (clean_temp_folder_frame _ _ _ _ Hsweep) as (_ & _ & Hfs).
    destruct (Hfs q) as [E|[_ (f & c & t & He & -> & _)]]; [done|].
    by destruct (Hzip f He).
Qed.

End RunReach.

Lemma main_reaches_only_scratch_zips_witness :
  fs (main sample_zip_encode network_up sample_config sample_world).2
    !! ["app"; "temp"; "keep.txt"]
  = fs sample_world !! ["app"; "temp"; "keep.txt"].
Proof.
  apply (main_reaches_only_scratch_zips sample_zip_encode network_up
           sample_config sample_world
           (main sample_zip_encode network_up sample_config sample_world).1).
  - reflexivity.
  - apply surjective_pairing.
  - intros [k Hk]. by destruct k.
  - intros f He E.
    apply (os_path_join_inj ["app"; "temp"] "keep.txt" f) in E. subst f.
    discriminate.
Defined.

(** ** Names and keys *)

Lemma string_app_inj_length (a a' b b' : string) :
  a +:+ b = a' +:+ b' -> String.length a = String.length a' ->
  a = a' /\ b = b'.
Proof.
  revert a'. induction a as [|c a IH]; intros [|c' a'] H Hlen;
    simpl in *; try discriminate.
  - done.
  - injection H as -> H. injection Hlen as Hlen.
    destruct (IH _ H Hlen) as [-> ->]. done.
Qed.

Lemma string_app_inj_suffix_length (a a' b b' : string) :
  a +:+ b = a' +:+ b' -> String.length b = String.length b' ->
  a = a' /\ b = b'.
Proof.
  intros H Hlen. apply string_app_inj_length; [done|].
  apply (f_equal String.length) in H. rewrite !string_length_app in H. lia.
Qed.

Lemma decimal_value_decimal n : decimal_value (decimal n) = n.
Proof.
  unfold decimal_value, decimal. rewrite NilEmpty.usu. apply Unsigned.of_to.
Qed.

Lemma decimal_value_two_digits n : decimal_value (two_digits n) = n.
Proof.
  unfold two_digits. destruct (n <? 10)%nat; [|apply decimal_value_decimal].
  change ("0" +:+ decimal n)
    with (String (Ascii.Ascii false false false false true true false false)
                 (decimal n)).
  unfold decimal_value, decimal. cbn [NilEmpty.uint_of_string].
  rewrite NilEmpty.usu.
  transitivity (Nat.of_uint (Nat.to_uint n)); [reflexivity|apply Unsigned.of_to].
Qed.

Lemma two_digits_length n : (n < 100)%nat -> String.length (two_digits n) = 2%nat.
Proof.
  intros Hn.
  assert (Hall : forallb (fun k => (String.length (two_digits k) =? 2)%nat)
                   (seq 0 100) = true) by (vm_compute; reflexivity).
  rewrite forallb_forall in Hall.
  apply Nat.eqb_eq, Hall, in_seq. lia.
Qed.

(** The timestamp of the backup name gives the time back. *)
Lemma strftime_Ymd_HMS_inj t1 t2 :
  two_digit_fields t1 -> two_digit_fields t2 ->
  strftime_Ymd_HMS t1 = strftime_Ymd_HMS t2 -> t1 = t2.
Proof.
  destruct t1 as [y1 mo1 d1 h1 mi1 s1], t2 as [y2 mo2 d2 h2 mi2 s2].
  unfold two_digit_fields, strftime_Ymd_HMS. simpl.
  intros (Hmo1 & Hd1 & Hh1 & Hmi1 & Hs1) (Hmo2 & Hd2 & Hh2 & Hmi2 & Hs2) H.
  apply string_app_inj_suffix_length in H as [Hy H].
  2: { rewrite !string_length_app, !two_digits_length by done. reflexivity. }
  apply string_app_inj_length in H as [Hmo H];
    [|by rewrite !two_digits_length].
  apply string_app_inj_length in H as [Hd H];
    [|by rewrite !two_digits_length].
  apply string_app_inj_length in H as [_ H]; [|done].
  apply string_app_inj_length in H as [Hh H];
    [|by rewrite !two_digits_length].
  apply string_app_inj_length in H as [Hmi Hs];
    [|by rewrite !two_digits_length].
  apply (f_equal decimal_value) in Hy, Hmo, Hd, Hh, Hmi, Hs.
  rewrite !decimal_value_decimal in Hy.
  rewrite !decimal_value_two_digits in Hmo, Hd, Hh, Hmi, Hs.
  congruence.
Qed.

(** X19.  Two runs whose local times differ, be it by one second, make
    different backup names: the name gives the time back. *)
Theorem create_backup_name_differs_with_time w1 w2 name1 name2 :
  two_digit_fields (localtime w1) ->
  two_digit_fields (localtime w2) ->
  localtime w1 <> localtime w2 ->
  create_backup_name w1 = (Ok name1, w1) ->
  create_backup_name w2 = (Ok name2, w2) ->
  name1 <> name2.
Proof.
  intros Hr1 Hr2 Hne H1 H2 E. apply Hne.
  rewrite create_backup_name_eq in H1, H2.
  injection H1 as <-. injection H2 as <-.
  apply strftime_Ymd_HMS_inj; [done|done|].
  apply (string_app_inj_length BACKUP_PREFIX BACKUP_PREFIX) in E as [_ E];
    [|done].
  by apply (string_app_inj_length "_" "_") in E as [_ E].
Qed.

Lemma create_backup_name_differs_with_time_witness :
  "backup_20120515-155045" <> "backup_20120515-155046".
Proof.
  apply (create_backup_name_differs_with_time sample_world later_world).
  - unfold two_digit_fields. simpl. lia.
  - unfold two_digit_fields. simpl. lia.
  - discriminate.
  - reflexivity.
  - reflexivity.
Defined.

Section Keys.

Variable s3_fault : string -> string -> data -> option exn.

(** X20.  Of two uploads that return, one after the other, the second is
    in the bucket under its key; the first is still there under its own
    key when the two backup names differ, and is replaced when they are
    the same: the last write wins, and nothing else is kept of an object. *)
Theorem uploads_keep_one_object_per_name cfg name1 zip1 name2 zip2 w w1 w2 :
  upload_zipped_folder s3_fault cfg name1 zip1 w = (Ok tt, w1) ->
  upload_zipped_folder s3_fault cfg name2 zip2 w1 = (Ok tt, w2) ->
  exists body1 body2 t1 t2,
    fs w !! zip1 = Some (File body1 t1) /\
    fs w !! zip2 = Some (File body2 t2) /\
    bucket_objects w2
      !! (wasabi_archive_bucket_name cfg,
          machine_name cfg +:+ "/" +:+ name2 +:+ ".zip") = Some body2 /\
    (name1 <> name2 ->
     bucket_objects w2
       !! (wasabi_archive_bucket_name cfg,
           machine_name cfg +:+ "/" +:+ name1 +:+ ".zip") = Some body1).
Proof.
  unfold upload_zipped_folder. intros H1 H2.
  apply upload_inv in H1 as [(e & He & _)|(body1 & t1 & _ & Hf1 & _ & ->)];
    [discriminate|].
  apply upload_inv in H2 as [(e & He & _)|(body2 & t2 & _ & Hf2 & _ & ->)];
    [discriminate|].
  simpl in *. exists body1, body2, t1, t2.
  split; [done|]. split; [done|]. split.
  - apply lookup_insert_eq.
  - intros Hne. rewrite lookup_insert_ne.
    + apply lookup_insert_eq.
    + intros [= E]. apply Hne. symmetry.
      apply (string_app_inj_length (machine_name cfg) (machine_name cfg))
        in E as [_ E]; [|done].
      apply (string_app_inj_length "/" "/") in E as [_ E]; [|done].
      by apply string_app_inj_suffix_length in E as [E _].
Qed.

End Keys.

Lemma uploads_keep_one_object_per_name_witness :
  exists body1 body2 t1 t2,
    fs sample_world !! ["app"; "temp"; "old.zip"] = Some (File body1 t1) /\
    fs sample_world !! ["data"; "z.txt"] = Some (File body2 t2) /\
    bucket_objects
      (upload_zipped_folder network_up sample_config "second" ["data"; "z.txt"]
         (upload_zipped_folder network_up sample_config "first"
            ["app"; "temp"; "old.zip"] sample_world).2).2
      !! ("archive", "box/second.zip") = Some body2 /\
    ("first" <> "second" ->
     bucket_objects
       (upload_zipped_folder network_up sample_config "second" ["data"; "z.txt"]
          (upload_zipped_folder network_up sample_config "first"
             ["app"; "temp"; "old.zip"] sample_world).2).2
       !! ("archive", "box/first.zip") = Some body1).
Proof.
  apply (uploads_keep_one_object_per_name network_up sample_config
           "first" ["app"; "temp"; "old.zip"] "second" ["data"; "z.txt"]
           sample_world
           (upload_zipped_folder network_up sample_config "first"
              ["app"; "temp"; "old.zip"] sample_world).2).
  - vm_compute. reflexivity.
  - vm_compute. reflexivity.
Defined.
